(** * FFRD model developer: tiled acquisition of SSURGO soils and NLCD land cover

    A shallow embedding of [src/spatially_varied_curve_numbers.py] and
    [src/spatially_varied_mannings_n.py].

    Conventions of the embedding.
    - Python floats are idealised as exact rationals ([Q]); [round(x, 8)] is
      rounding to the nearest multiple of 10^-8, ties to even.
    - Exceptions are values of [exn]; a computation that touches the network
      or the file system is a function [world -> result A * world], so that
      what was already written or requested when an exception is raised is
      still visible.
    - The remote services are oracles indexed by the request and by the number
      of earlier requests for the same resource.
    - Geometry (reprojection, intersection, clipping, warping) belongs to
      geopandas, rasterio and GDAL and enters as parameters. *)

From Stdlib Require Import ZArith QArith Qround Qabs Lqa Lia Ascii.
From stdpp Require Import gmap strings list sorting pretty.

Local Open Scope Z_scope.
Local Open Scope Q_scope.

(** ** Python numerics *)

Module PyNum.

(** [math.ceil] on a float. *)
Definition ceil (q : Q) : Z := Qceiling q.

(** Nearest integer, ties to even: the rounding mode of [round]. *)
Definition round_half_even (q : Q) : Z :=
  let f := Qfloor q in
  match Qcompare (q - inject_Z f) (1 # 2) with
  | Lt => f
  | Gt => (f + 1)%Z
  | Eq => if Z.even f then f else (f + 1)%Z
  end.

Definition pow10_8 : Q := inject_Z 100000000.

(** [round(q, 8)] *)
Definition round8 (q : Q) : Q := inject_Z (round_half_even (q * pow10_8)) / pow10_8.

(** [int(x)] on a float: truncation towards zero. *)
Definition int_of (q : Q) : Z :=
  if Qle_bool 0 q then Qfloor q else Qceiling q.

End PyNum.

(** ** Exceptions *)

Inductive exn : Type :=
| ZeroDivisionError
| ValueError (msg : string)
| TypeError
| IndexError
| RasterioIOError (path : string)
| AttributeError (attr : string)
| FileNotFoundError (path : string)
| DataSourceError
| CsvError
| NoDataRetrieved.

Inductive result (A : Type) : Type :=
| Ok (a : A)
| Raise (e : exn).
Arguments Ok {A} a.
Arguments Raise {A} e.

(** ** The extent tiler

    [split_extent] is the same function in both modules up to the two local
    constants [subextent_size] and [tile_margin]. An extent is
    [(min_x, max_x, min_y, max_y)]. *)

Definition extent : Type := Q * Q * Q * Q.

Module Tiler.
Section Tiler.
Variable subextent_size : Q.
Variable tile_margin : Q.

Definition num_rows (e : extent) : Z :=
  let '(min_x, max_x, min_y, max_y) := e in
  PyNum.ceil ((max_y - min_y) / subextent_size).

Definition num_cols (e : extent) : Z :=
  let '(min_x, max_x, min_y, max_y) := e in
  PyNum.ceil ((max_x - min_x) / subextent_size).

Definition step_x (e : extent) : Q :=
  let '(min_x, max_x, min_y, max_y) := e in
  (max_x - min_x) / inject_Z (num_cols e).

Definition step_y (e : extent) : Q :=
  let '(min_x, max_x, min_y, max_y) := e in
  PyNum.round8 ((max_y - min_y) / inject_Z (num_rows e)).


(** The four rounded bounds of the loop body. *)
Definition subextent (e : extent) (row col : nat) : extent :=
  let '(min_x, max_x, min_y, max_y) := e in
  let subextent_min_x :=
    PyNum.round8 ((min_x + inject_Z (Z.of_nat col) * step_x e) - tile_margin) in
  let subextent_max_x :=
    PyNum.round8 ((min_x + inject_Z (Z.of_nat col + 1) * step_x e) + tile_margin) in
  let subextent_min_y :=
    PyNum.round8 ((min_y + inject_Z (Z.of_nat row) * step_y e) - tile_margin) in
  let subextent_max_y :=
    PyNum.round8 ((min_y + inject_Z (Z.of_nat row + 1) * step_y e) + tile_margin) in
  (subextent_min_x, subextent_max_x, subextent_min_y, subextent_max_y).

(** [range(n)] for an integer [n]; empty when [n <= 0]. *)
Definition range (n : Z) : list nat := seq 0 (Z.to_nat n).

(** All [(row, col)] pairs in the order of the nested loops. *)
Definition grid (e : extent) : list (nat * nat) :=
  row ← range (num_rows e); col ← range (num_cols e); [(row, col)].

(** [intersects] stands for [gdf.intersects(box(...)).any()]. The two
    divisions by the integer counts raise when the count is zero. *)
Definition split_extent (e : extent) (intersects : extent -> bool)
  : result (list extent) :=
  if (num_cols e =? 0)%Z then Raise ZeroDivisionError
  else if (num_rows e =? 0)%Z then Raise ZeroDivisionError
  else Ok (filter (λ t, intersects t = true)
                  (map (λ rc, subextent e rc.1 rc.2) (grid e))).
End Tiler.
End Tiler.


(** ** The world: remote services and the file system *)

(** A request is identified by the numbers formatted into its URL. *)
Inductive url : Type :=
| WfsUrl (min_x min_y max_x max_y : Q)
| WcsUrl (min_y max_y min_x max_x : Q).

Definition url_eqb (a b : url) : bool :=
  match a, b with
  | WfsUrl a1 a2 a3 a4, WfsUrl b1 b2 b3 b4
  | WcsUrl a1 a2 a3 a4, WcsUrl b1 b2 b3 b4 =>
      Qeq_bool a1 b1 && Qeq_bool a2 b2 && Qeq_bool a3 b3 && Qeq_bool a4 b4
  | _, _ => false
  end.

(** The lookup CSV as its two readers see it: [csv.DictReader] gives the
    header ([None] for a file without a first line), pandas gives the rows
    under the columns [value], [nlcd_name] and [mannings_n]. *)
Record csv : Type := {
  fieldnames : option (list string);
  records : list (Z * string * Q);
}.

(** The area of interest as the pipelines observe it: its bounding box
    [(min_x, min_y, max_x, max_y)] and its intersection test in the two
    coordinate systems. *)
Record aoi : Type := {
  total_bounds_4326 : Q * Q * Q * Q;
  total_bounds_5070 : Q * Q * Q * Q;
  intersects_4326 : extent -> bool;
  intersects_5070 : extent -> bool;
}.

(** [os.path.join(d, name)] for a relative [name]. *)
Fixpoint ends_with_slash (d : string) : bool :=
  match d with
  | EmptyString => false
  | String c EmptyString => Ascii.eqb c "/"%char
  | String _ d' => ends_with_slash d'
  end.

Definition path_join (d name : string) : string :=
  if decide (d = ""%string) then name
  else if ends_with_slash d then (d ++ name)%string
  else (d ++ "/" ++ name)%string.

(** [s.endswith(suffix)] *)
Fixpoint endswith (s suffix : string) : bool :=
  match s with
  | EmptyString => String.eqb s suffix
  | String _ s' => String.eqb s suffix || endswith s' suffix
  end.

(** The outcome of a statement guarded by [assert]. The [AssertionError] of
    [export_default_csv] is kept apart from the exceptions of the two
    pipelines, which never raise it. *)
Inductive asserted (A : Type) : Type :=
| Passed (a : A)
| AssertionError (msg : string).
Arguments Passed {A} a.
Arguments AssertionError {A} msg.

(** A raster band as rows of cells. *)
Abbreviation raster A := (list (list A)).

Section World.
(** Geometries are opaque; [drop_duplicates] compares them. *)
Context {G : Type} `{EqDecision G}.

Record feature : Type := { geometry : G; mukey : Z }.

#[global] Instance feature_eq_dec : EqDecision feature.
Proof. solve_decision. Defined.

(** Cells of a roughness raster: [None] is NaN. *)
Inductive file : Type :=
| Vector (rows : list feature)
| LandCover (cells : raster Z)
| Roughness (cells : raster (option Q))
| Table (t : csv).

Record world : Type := {
  requests : list url;          (* remote requests so far, oldest first *)
  files : gmap string file;
}.

Definition M (A : Type) : Type := world -> result A * world.

Definition ret {A} (a : A) : M A := λ w, (Ok a, w).
Definition raise {A} (e : exn) : M A := λ w, (Raise e, w).
Definition bind {A B} (c : M A) (k : A -> M B) : M B :=
  λ w, match c w with
       | (Ok a, w') => k a w'
       | (Raise e, w') => (Raise e, w')
       end.
(** [try: c except: h] *)
Definition try_except {A} (c : M A) (h : exn -> M A) : M A :=
  λ w, match c w with
       | (Ok a, w') => (Ok a, w')
       | (Raise e, w') => h e w'
       end.
Definition lift {A} (r : result A) : M A := λ w, (r, w).

Definition log_request (u : url) : M unit :=
  λ w, (Ok tt, {| requests := requests w ++ [u]; files := files w |}).
Definition earlier_requests (u : url) : M nat :=
  λ w, (Ok (length (filter (λ v, url_eqb u v = true) (requests w))), w).
Definition write_file (path : string) (f : file) : M unit :=
  λ w, (Ok tt, {| requests := requests w; files := <[path := f]> (files w) |}).
Definition read_path (path : string) : M (option file) :=
  λ w, (Ok (files w !! path), w).
Definition remove_path (path : string) : M unit :=
  λ w, match files w !! path with
       | Some _ => (Ok tt, {| requests := requests w; files := delete path (files w) |})
       | None => (Raise (FileNotFoundError path), w)
       end.

Fixpoint mapM {A B} (f : A -> M B) (l : list A) : M (list B) :=
  match l with
  | [] => ret []
  | a :: l' => bind (f a) (λ b, bind (mapM f l') (λ bs, ret (b :: bs)))
  end.

Fixpoint foldM {A S} (f : S -> A -> M S) (s : S) (l : list A) : M S :=
  match l with
  | [] => ret s
  | a :: l' => bind (f s a) (λ s', foldM f s' l')
  end.
End World.

Arguments feature G : clear implicits.

(** A (Geo)DataFrame of soil polygons. *)
Abbreviation gdf G := (list (feature G)).
Arguments file G : clear implicits.
Arguments world G : clear implicits.
Arguments M G A : clear implicits.

Notation "'let!' x ':=' c 'in' k" := (bind c (λ x, k))
  (at level 10, x pattern, c at level 100, k at level 200).
Notation "'run!' c 'in' k" := (bind c (λ _, k))
  (at level 10, c at level 100, k at level 200).

(** ** [spatially_varied_curve_numbers.py] *)

Module CurveNumbers.
Section Acquire.
Context {G : Type} `{EqDecision G}.

(** The WFS endpoint: the reply to the [n]-th read of a URL, [None] when
    [gpd.read_file] raises. *)
Variable wfs : url -> nat -> option (gdf G).
(** [gpd.clip(merged_gdf, gdf)] *)
Variable clip : aoi -> gdf G -> gdf G.
(** [mp.cpu_count()] *)
Variable cpu_count : Z.

Definition read_file (wfs_url : url) : M G (gdf G) :=
  let! n := earlier_requests wfs_url in
  run! log_request wfs_url in
  match wfs wfs_url n with
  | Some g => ret g
  | None => raise DataSourceError
  end.

(** [gdf.empty] *)
Definition empty (g : gdf G) : bool :=
  match g with [] => true | _ => false end.

(** The loop of [get_data]; [gdf_ssurgo] is [None] while the local variable
    is unbound. The loop has no [break]. *)
Fixpoint get_data_loop (attempts : list nat) (wfs_url : url)
    (gdf_ssurgo : option (gdf G)) : M G (option (gdf G)) :=
  match attempts with
  | [] => ret gdf_ssurgo
  | _ :: attempts' =>
      let! gdf_ssurgo' :=
        try_except (let! g := read_file wfs_url in ret (Some g))
                   (λ _, ret gdf_ssurgo) in
      get_data_loop attempts' wfs_url gdf_ssurgo'
  end.

(** Returns the pair [[gdf_ssurgo, failed_url]]. *)
Definition get_data (wfs_url : url) : M G (option (gdf G) * option url) :=
  let! gdf_ssurgo := get_data_loop (Tiler.range 3) wfs_url None in
  match gdf_ssurgo with
  | Some g => if negb (empty g) then ret (Some g, None)
              else ret (None, Some wfs_url)
  | None => ret (None, Some wfs_url)
  end.

(** [None] is the value returned after the [except] branch. *)
Definition get_failed_data (failed_url_list : list url) (gdf_ssurgo : list (gdf G))
  : M G (option (list (gdf G))) :=
  try_except
    (let! rerun_gdf := mapM get_data failed_url_list in
     let rerun_results := omap fst rerun_gdf in
     ret (Some (gdf_ssurgo ++ rerun_results)))
    (λ _, ret None).

Definition create_url (min_x min_y max_x max_y : Q) : url :=
  WfsUrl min_x min_y max_x max_y.

Definition subextent_size : Q := 25 # 100.
Definition tile_margin : Q := 15 # 10000.

Definition split_extent (e : extent) (intersects : extent -> bool)
  : result (list extent) :=
  Tiler.split_extent subextent_size tile_margin e intersects.

(** [mp.Pool(processes)] *)
Definition Pool (processes : Z) : result unit :=
  if (processes <? 1)%Z
  then Raise (ValueError "Number of processes must be at least 1")
  else Ok tt.

(** [drop_duplicates(subset=["geometry", "mukey"])]: the first of equal rows
    is kept. *)
Fixpoint drop_duplicates_from (seen : list (feature G)) (rows : gdf G) : gdf G :=
  match rows with
  | [] => []
  | r :: rows' =>
      if decide (r ∈ seen) then drop_duplicates_from seen rows'
      else r :: drop_duplicates_from (r :: seen) rows'
  end.
Definition drop_duplicates (rows : gdf G) : gdf G := drop_duplicates_from [] rows.

(** The extent buffered by five percent. *)
Definition buffered_extent (a : aoi) : extent :=
  let '(min_x, min_y, max_x, max_y) := total_bounds_4326 a in
  let min_x := min_x - Qabs (max_x - min_x) * (5 # 100) in
  let min_y := min_y - Qabs (max_y - min_y) * (5 # 100) in
  let max_x := max_x + Qabs (max_x - min_x) * (5 # 100) in
  let max_y := max_y + Qabs (max_y - min_y) * (5 # 100) in
  (min_x, max_x, min_y, max_y).

Definition study_area (e : extent) : Q :=
  let '(min_x, max_x, min_y, max_y) := e in
  let span_x := Qabs (max_x - min_x) in
  let span_y := Qabs (max_y - min_y) in
  span_x * span_y.

Definition url_list_of (tile_extents : list extent) : list url :=
  map (λ ext : extent, let '(min_x, max_x, min_y, max_y) := ext in
                       create_url min_x min_y max_x max_y) tile_extents.

(** The area of interest [a] stands for the file at [aoi_path] after
    [to_crs]. [pool.map] returns its results in the order of [url_list]; every
    worker reads its own URL, so the reads are logged one URL after the
    other. The prints and the reprojections are left out. *)
Definition acquire_ssurgo_data (a : aoi) (output_directory : string) : M G string :=
  let ext := buffered_extent a in
  let area := study_area ext in      (* only printed *)
  let! tile_extents := lift (split_extent ext (intersects_4326 a)) in
  let url_list := url_list_of tile_extents in
  let num_cores := cpu_count in
  run! lift (Pool (PyNum.int_of (inject_Z num_cores / 4))) in
  let! results := mapM get_data url_list in
  let gdf_ssurgo := omap fst results in
  let failed_url_list := omap snd results in
  let! gdf_ssurgo :=
    match failed_url_list with
    | [] => ret (Some gdf_ssurgo)
    | _ :: _ => get_failed_data failed_url_list gdf_ssurgo
    end in
  match gdf_ssurgo with
  | None => raise TypeError
  | Some gdf_ssurgo =>
      if negb (existsb (λ g, negb (empty g)) gdf_ssurgo)
      then raise NoDataRetrieved
      else
        let merged_gdf := concat gdf_ssurgo in
        let merged_gdf := drop_duplicates merged_gdf in
        let soils_gdf := clip a merged_gdf in
        let output_ssurgo := path_join output_directory "ssurgo_data.gpkg" in
        run! write_file output_ssurgo (Vector soils_gdf) in
        ret output_ssurgo
  end.
End Acquire.

(** *** The hydrologic-group classifier of [get_soils_hydro_group] *)

(** A row of the component table: [mukey], [comppct_r] after
    [astype(float)] ([None] is NaN) and [hydgrp] ([None] is null). *)
Record component : Type := {
  c_mukey : string;
  c_comppct_r : option Q;
  c_hydgrp : option string;
}.

(** Group keys [(hydgrp, mukey)] in the order of [groupby]: by [hydgrp],
    then by [mukey]. *)
Definition key_le (a b : string * string) : Prop :=
  (a.1 ≠ b.1 ∧ String.le a.1 b.1) ∨ (a.1 = b.1 ∧ String.le a.2 b.2).

#[global] Instance key_le_dec : RelDecision key_le.
Proof. intros a b. unfold key_le. apply _. Defined.

(** The distinct values of a list in sorted order, the group labels of a
    [groupby]. *)
Definition sorted_unique {A} `{EqDecision A} (R : relation A) `{RelDecision A A R}
    (l : list A) : list A :=
  merge_sort R (remove_dups l).

(** [sum()] of a group; NaN is skipped. *)
Definition nansum (l : list (option Q)) : Q :=
  fold_left (λ acc x, acc + default 0 x) l 0.

Definition in_group (h k : string) (r : component) : Prop :=
  c_hydgrp r = Some h ∧ c_mukey r = k.

#[global] Instance in_group_dec h k r : Decision (in_group h k r).
Proof. unfold in_group. apply _. Defined.

Definition pct_of (df : list component) (h k : string) : Q :=
  nansum (map c_comppct_r (filter (in_group h k) df)).

(** The [(hydgrp, mukey)] pair of every row whose [hydgrp] is not null. *)
Definition group_keys (df : list component) : list (string * string) :=
  omap (λ r, (λ h, (h, c_mukey r)) <$> c_hydgrp r) df.

(** [df.groupby(["hydgrp", "mukey"])["comppct_r"].sum().reset_index()] with
    the columns renamed to [hydgrp], [mukey], [pct]; rows with a null
    [hydgrp] belong to no group. *)
Definition grouped_data (df : list component) : list (string * string * Q) :=
  map (λ hk : string * string, (hk.1, hk.2, pct_of df hk.1 hk.2))
      (sorted_unique key_le (group_keys df)).

(** [idxmax]: the label of the first row that holds the maximum. *)
Fixpoint idxmax_from (best_i : nat) (best : Q) (l : list (nat * Q)) : nat :=
  match l with
  | [] => best_i
  | (i, q) :: l' =>
      if Qle_bool q best then idxmax_from best_i best l'
      else idxmax_from i q l'
  end.

Definition idxmax (l : list (nat * Q)) : option nat :=
  match l with
  | [] => None
  | (i, q) :: l' => Some (idxmax_from i q l')
  end.

(** The labelled [pct] values of the rows of one [mukey]. *)
Definition pct_rows (grouped : list (string * string * Q)) (k : string)
  : list (nat * Q) :=
  omap (λ ir : nat * (string * string * Q),
          if decide (ir.2.1.2 = k) then Some (ir.1, ir.2.2) else None)
       (zip (seq 0 (length grouped)) grouped).

(** [grouped_data.loc[grouped_data.groupby("mukey")["pct"].idxmax()]] *)
Definition hydrogroup_data (df : list component) : list (string * string * Q) :=
  let grouped := grouped_data df in
  let mukeys := sorted_unique String.le (map (λ r : string * string * Q, r.1.2) grouped) in
  let idx := omap (λ k, idxmax (pct_rows grouped k)) mukeys in
  omap (λ i, grouped !! i) idx.

(** [str.replace(old, new)] for one-character [old] and [new]. *)
Fixpoint replace (old new : ascii) (s : string) : string :=
  match s with
  | EmptyString => EmptyString
  | String c s' => String (if Ascii.eqb c old then new else c) (replace old new s')
  end.

(** The end of [get_soils_hydro_group] on the joined and dissolved frame
    (columns [hydgrp] and [geometry]): rename to [Soil_Class], drop the null
    classes, replace the separator, keep the two columns. *)
Definition soil_classes {G} (dissolved : list (option string * G))
  : list (string * G) :=
  let renamed := dissolved in
  let notnull := omap (λ r : option string * G, (λ c, (c, r.2)) <$> r.1) renamed in
  map (λ r : string * G, (replace "/" "-" r.1, r.2)) notnull.

End CurveNumbers.

(** ** [spatially_varied_mannings_n.py] *)

Module ManningsN.

Definition required_fields : list string := ["value"; "nlcd_name"; "mannings_n"].

(** The loop of [check_fields_in_csv] over [required_fields]. *)
Fixpoint check_fields (fields : list string) (fieldnames : list string) : result unit :=
  match fields with
  | [] => Ok tt
  | field :: fields' =>
      if decide (field ∉ fieldnames)
      then Raise (ValueError ("Required field '" ++ field ++ "' not found in CSV file"))
      else check_fields fields' fieldnames
  end.

(** The table written into [mock_csv_file]. *)
Definition mock_csv_file : csv :=
  {| fieldnames := Some ["value"; "nlcd_name"; "mannings_n"];
     records :=
       [ (11%Z, "Open Water", 3 # 100);
         (12%Z, "Perennial Ice/Snow", 9999 # 100000);
         (21%Z, "Developed Open Space", 45 # 1000);
         (22%Z, "Developed Low Intensity", 75 # 1000);
         (23%Z, "Developed Medium Intensity", 81 # 1000);
         (24%Z, "Developed High Intensity", 137 # 1000);
         (31%Z, "Barren Land", 3 # 100);
         (41%Z, "Deciduous Forest", 114 # 1000);
         (42%Z, "Evergreen Forest", 13 # 100);
         (43%Z, "Mixed Forest", 121 # 1000);
         (51%Z, "Dwarf Scrub", 9999 # 100000);
         (52%Z, "Shrub Scrub", 4 # 100);
         (71%Z, "Herbaceous Grassland", 35 # 1000);
         (72%Z, "Herbaceous Sedge", 9999 # 100000);
         (73%Z, "Lichens", 9999 # 100000);
         (74%Z, "Moss", 9999 # 100000);
         (81%Z, "Hay Pasture", 4 # 100);
         (82%Z, "Cultivated Crops", 4 # 100);
         (90%Z, "Woody Wetlands", 8 # 100);
         (95%Z, "Emergent Herbaceous Wetlands", 79 # 1000) ] |}.

(** [pd.Series(df.mannings_n.values, index=df.value).to_dict()]: a later row
    replaces an earlier one with the same code. *)
Definition to_dict (rows : list (Z * string * Q)) : gmap Z Q :=
  fold_left (λ d (r : Z * string * Q), <[r.1.1 := r.2]> d) rows ∅.

(** [np.vectorize(value_to_manningsn.get)(raster_data).astype("float32")]:
    [dict.get] gives [None] for a missing key, which the cast turns into
    NaN, here [None] as well. The band of a raster file has at least one
    cell; the rounding of the cast to single precision is left out. *)
Definition remap (value_to_manningsn : gmap Z Q) (raster_data : raster Z)
  : raster (option Q) :=
  map (map (λ code, value_to_manningsn !! code)) raster_data.

Definition subextent_size : Q := inject_Z 100000.
Definition tile_margin : Q := inject_Z 120.

Definition split_extent (e : extent) (intersects : extent -> bool)
  : result (list extent) :=
  Tiler.split_extent subextent_size tile_margin e intersects.

Definition get_url (e : extent) : url :=
  let '(min_x, max_x, min_y, max_y) := e in
  WcsUrl min_y max_y min_x max_x.

(** The two values returned by [get_img]. *)
Inductive status : Type := fail | success.

Section Pipeline.
Context {G : Type}.

(** The WCS endpoint: the raster behind the [n]-th [gdal.Open] of a URL,
    [None] when the dataset cannot be opened. *)
Variable wcs : url -> nat -> option (raster Z).
(** [rasterio.mask.mask(src, gdf.geometry, crop=True)] *)
Variable mask_codes : aoi -> raster Z -> result (raster Z).
Variable mask_rough : aoi -> raster (option Q) -> result (raster (option Q)).
(** [gdal.Warp] of the opened inputs; [None] when GDAL fails, which with
    [gdal.DontUseExceptions()] raises nothing. *)
Variable warp_codes : list (raster Z) -> option (raster Z).
Variable warp_rough : list (raster (option Q)) -> option (raster (option Q)).

Definition open_csv (file_path : string) : M G csv :=
  let! f := read_path file_path in
  match f with
  | None => raise (FileNotFoundError file_path)
  | Some (Table t) => ret t
  | Some _ => raise CsvError
  end.

Definition check_fields_in_csv (file_path : string) : M G unit :=
  let! t := open_csv file_path in
  match fieldnames t with
  | None => raise TypeError            (* [field not in None] *)
  | Some names => lift (check_fields required_fields names)
  end.

Definition get_img (wcs_url : url) (fname : string) : M G status :=
  let! n := earlier_requests wcs_url in
  run! log_request wcs_url in
  match wcs wcs_url n with
  | None => ret fail
  | Some ds => run! write_file fname (LandCover ds) in ret success
  end.

(** [df.name] on a frame read from the table. *)
Definition column (t : csv) (name : string) : result unit :=
  match fieldnames t with
  | Some names => if decide (name ∈ names) then Ok tt else Raise (AttributeError name)
  | None => Raise (AttributeError name)
  end.

Definition convert_to_mannings (image_path out_img_mannings : string)
    (nlcd_classifications_path : option string) : M G unit :=
  let! df :=
    match nlcd_classifications_path with
    | None => ret mock_csv_file
    | Some path => open_csv path
    end in
  let! src := read_path image_path in
  match src with
  | Some (LandCover raster_data) =>
      run! lift (column df "mannings_n") in
      run! lift (column df "value") in
      let value_to_manningsn := to_dict (records df) in
      let manningsn_data := remap value_to_manningsn raster_data in
      write_file out_img_mannings (Roughness manningsn_data)
  | _ => raise (RasterioIOError image_path)
  end.

Fixpoint land_covers (fs : list (option (file G))) : option (list (raster Z)) :=
  match fs with
  | [] => Some []
  | Some (LandCover r) :: fs' => cons r <$> land_covers fs'
  | _ => None
  end.

Fixpoint roughnesses (fs : list (option (file G))) : option (list (raster (option Q))) :=
  match fs with
  | [] => Some []
  | Some (Roughness r) :: fs' => cons r <$> roughnesses fs'
  | _ => None
  end.

(** [gdal.Warp(output_mosaic, input_imgs, ...)]: nothing is written when an
    input cannot be opened or the warp fails. *)
Definition build_mosaic (input_imgs : list string) (output_mosaic : string) : M G unit :=
  let! fs := mapM read_path input_imgs in
  match land_covers fs ≫= warp_codes, roughnesses fs ≫= warp_rough with
  | Some r, _ => write_file output_mosaic (LandCover r)
  | None, Some r => write_file output_mosaic (Roughness r)
  | None, None => ret tt
  end.

Definition clip_image (image_path out_img : string) (a : aoi) : M G unit :=
  let! src := read_path image_path in
  match src with
  | Some (LandCover r) =>
      let! out_image := lift (mask_codes a r) in write_file out_img (LandCover out_image)
  | Some (Roughness r) =>
      let! out_image := lift (mask_rough a r) in write_file out_img (Roughness out_image)
  | _ => raise (RasterioIOError image_path)
  end.

Definition area_4326 (a : aoi) : Q :=
  let '(min_x, min_y, max_x, max_y) := total_bounds_4326 a in
  let span_x := Qabs (max_x - min_x) in
  let span_y := Qabs (max_y - min_y) in
  span_x * span_y.

Definition ext_albers (a : aoi) : extent :=
  let '(min_x, min_y, max_x, max_y) := total_bounds_5070 a in
  (min_x, max_x, min_y, max_y).

(** The three lists the first loop appends to. *)
Record tiles : Type := {
  failed_img : list nat;
  tile_paths : list string;
  tile_paths_mannings : list string;
}.

(** The body of the loop over [enumerate(tile_extents)]:
    [convert_to_mannings] runs before [result] is looked at. *)
Definition first_pass (output_directory : string)
    (nlcd_classifications_path : option string)
    (acc : tiles) (it : nat * extent) : M G tiles :=
  let '(i, ext) := it in
  let wcs_url := get_url ext in
  let out_img := path_join output_directory ("nlcd_" ++ pretty i ++ ".tif") in
  let out_img_mannings :=
    path_join output_directory ("mannings_n_" ++ pretty i ++ ".tif") in
  let! result := get_img wcs_url out_img in
  run! convert_to_mannings out_img out_img_mannings nlcd_classifications_path in
  match result with
  | fail =>
      ret {| failed_img := failed_img acc ++ [i];
             tile_paths := tile_paths acc;
             tile_paths_mannings := tile_paths_mannings acc |}
  | success =>
      ret {| failed_img := failed_img acc;
             tile_paths := tile_paths acc ++ [out_img];
             tile_paths_mannings := tile_paths_mannings acc ++ [out_img_mannings] |}
  end.

(** The body of the loop over [failed_img]. *)
Definition second_pass (output_directory : string)
    (nlcd_classifications_path : option string) (tile_extents : list extent)
    (acc : tiles) (i : nat) : M G tiles :=
  match tile_extents !! i with
  | None => raise IndexError          (* unreachable: [i] indexes [tile_extents] *)
  | Some ext =>
      let out_img :=
        path_join output_directory ("nlcd_" ++ pretty i ++ "_" ++ pretty i ++ ".tif") in
      let out_img_mannings :=
        path_join output_directory
                  ("mannings_n_" ++ pretty i ++ "_" ++ pretty i ++ ".tif") in
      let wcs_url := get_url ext in
      let! result := get_img wcs_url out_img in
      run! convert_to_mannings out_img out_img_mannings nlcd_classifications_path in
      match result with
      | success =>
          ret {| failed_img := failed_img acc;
                 tile_paths := tile_paths acc ++ [out_img];
                 tile_paths_mannings := tile_paths_mannings acc ++ [out_img_mannings] |}
      | fail => ret acc
      end
  end.

Definition enumerate {A} (l : list A) : list (nat * A) := zip (seq 0 (length l)) l.

(** The file gets the text of [mock_csv_file], here the table it parses to;
    the assertion comes after the table is built and before the file is
    opened. The print is left out. *)
Definition export_default_csv (output_csv : string)
  : world G -> asserted unit * world G :=
  λ w,
    let f := mock_csv_file in
    if endswith output_csv ".csv"
    then (Passed tt, (write_file output_csv (Table f) w).2)
    else (AssertionError "Output path must end with .csv", w).

(** The area of interest [a] stands for the dissolved file at [aoi_path]
    with its bounds in both coordinate systems. The prints are left out. *)
Definition get_nlcd_and_convert (a : aoi) (output_directory : string)
    (nlcd_classifications_path : option string) : M G unit :=
  run! match nlcd_classifications_path with
       | Some path => check_fields_in_csv path
       | None => ret tt
       end in
  let area := area_4326 a in
  if Qle_bool area 9 then
    let out_img := path_join output_directory "nlcd_clip.tif" in
    let out_img_mannings := path_join output_directory "mannings_n_clip.tif" in
    let wcs_url := get_url (ext_albers a) in
    run! get_img wcs_url out_img in
    run! convert_to_mannings out_img out_img_mannings nlcd_classifications_path in
    run! clip_image out_img out_img a in
    clip_image out_img_mannings out_img_mannings a
  else
    let! tile_extents := lift (split_extent (ext_albers a) (intersects_5070 a)) in
    let! acc :=
      foldM (first_pass output_directory nlcd_classifications_path)
            {| failed_img := []; tile_paths := []; tile_paths_mannings := [] |}
            (enumerate tile_extents) in
    let! acc :=
      foldM (second_pass output_directory nlcd_classifications_path tile_extents)
            acc (failed_img acc) in
    let output_mosaic := path_join output_directory "nlcd_clip.tif" in
    let output_mosaic_mannings := path_join output_directory "mannings_n_clip.tif" in
    run! build_mosaic (tile_paths acc) output_mosaic in
    run! build_mosaic (tile_paths_mannings acc) output_mosaic_mannings in
    run! foldM (λ _ tile, remove_path tile) tt (tile_paths acc) in
    run! foldM (λ _ tile, remove_path tile) tt (tile_paths_mannings acc) in
    run! clip_image output_mosaic output_mosaic a in
    clip_image output_mosaic_mannings output_mosaic_mannings a.
End Pipeline.
End ManningsN.

(** ** Vocabulary of the statements *)

(** The character [c] occurs in [s]. *)
Definition occurs (c : ascii) (s : string) : Prop := ∃ i, String.get i s = Some c.

(** Half a unit in the eighth decimal place. *)
Definition half_ulp : Q := 1 # 200000000.


(** [(i, q)] is the first entry of [l] that holds the maximum of [l]. *)
Definition first_max (l : list (nat * Q)) (i : nat) (q : Q) : Prop :=
  ∃ l1 l2, l = l1 ++ (i, q) :: l2 ∧
           Forall (λ jq : nat * Q, jq.2 < q) l1 ∧ Forall (λ jq : nat * Q, jq.2 <= q) l2.

(** The group labels of [grouped_data], in its row order. *)
Definition sorted_keys (df : list CurveNumbers.component) : list (string * string) :=
  CurveNumbers.sorted_unique CurveNumbers.key_le (CurveNumbers.group_keys df).

(** [row] is the row the classifier keeps for [mukey] [k]: a group of [k]
    whose summed percentage no group of [k] exceeds, the first in string order
    among the groups of [k] that reach this sum. *)
Definition first_maximal_group (df : list CurveNumbers.component) (k : string)
    (row : string * string * Q) : Prop :=
  ∃ g, row = (g, k, CurveNumbers.pct_of df g k) ∧
       (∃ r, r ∈ df ∧ CurveNumbers.in_group g k r) ∧
       ∀ g', (∃ r, r ∈ df ∧ CurveNumbers.in_group g' k r) →
             CurveNumbers.pct_of df g' k <= CurveNumbers.pct_of df g k ∧
             (CurveNumbers.pct_of df g' k == CurveNumbers.pct_of df g k → String.le g g').

(** The rows of [mukey] [k] among [rows], labelled from [start]. *)
Definition pct_rows_from (start : nat) (rows : list (string * string * Q)) (k : string)
  : list (nat * Q) :=
  omap (λ ir : nat * (string * string * Q),
          if decide (ir.2.1.2 = k) then Some (ir.1, ir.2.2) else None)
       (zip (seq start (length rows)) rows).





(** The number of requests for [u] made so far. *)
Definition reads_of {G} (u : url) (w : world G) : nat :=
  length (filter (λ v, url_eqb u v = true) (requests w)).

(** The world after one more request for [u]. *)
Definition logged {G} (u : url) (w : world G) : world G :=
  {| requests := requests w ++ [u]; files := files w |}.

(** The collection of the last read that did not raise. *)
Definition last_reply {G} (replies : list (option (gdf G))) : option (gdf G) :=
  last (omap id replies).

(** What [get_data] returns for a URL whose reads always give [reply]. *)
Definition steady_result {G} (reply : option (gdf G)) (wfs_url : url)
  : option (gdf G) * option url :=
  match reply with
  | Some (r :: g) => (Some (r :: g), None)
  | _ => (None, Some wfs_url)
  end.

(** The collections of the URLs that are served with data. *)
Definition served_data {G} (served : url -> option (gdf G)) (url_list : list url)
  : list (gdf G) :=
  omap (λ u, (steady_result (served u) u).1) url_list.

(** The two files the first loop of the raster pipeline writes for tile [i]. *)
Definition nlcd_tile (d : string) (i : nat) : string :=
  path_join d ("nlcd_" ++ pretty i ++ ".tif").
Definition mannings_tile (d : string) (i : nat) : string :=
  path_join d ("mannings_n_" ++ pretty i ++ ".tif").

(** ** Inputs used to exercise the statements *)

Module Examples.

(** The component rows of the specification's test for one map unit, and a
    second map unit with a tie and a null group. *)
Definition component_table : list CurveNumbers.component :=
  [ {| CurveNumbers.c_mukey := "657964"; CurveNumbers.c_comppct_r := Some 25;
       CurveNumbers.c_hydgrp := Some "C"%string |};
    {| CurveNumbers.c_mukey := "657964"; CurveNumbers.c_comppct_r := Some 30;
       CurveNumbers.c_hydgrp := Some "A"%string |};
    {| CurveNumbers.c_mukey := "657964"; CurveNumbers.c_comppct_r := Some 20;
       CurveNumbers.c_hydgrp := Some "B"%string |};
    {| CurveNumbers.c_mukey := "657964"; CurveNumbers.c_comppct_r := Some 25;
       CurveNumbers.c_hydgrp := Some "B"%string |};
    {| CurveNumbers.c_mukey := "123"; CurveNumbers.c_comppct_r := Some 20;
       CurveNumbers.c_hydgrp := Some "B/D"%string |};
    {| CurveNumbers.c_mukey := "123"; CurveNumbers.c_comppct_r := Some 20;
       CurveNumbers.c_hydgrp := Some "A"%string |};
    {| CurveNumbers.c_mukey := "123"; CurveNumbers.c_comppct_r := Some 60;
       CurveNumbers.c_hydgrp := None |} ].

(** A dissolved frame with a dual class, a null class and a plain class. *)
Definition dissolved_frame : list (option string * nat) :=
  [(Some "A/D", 1%nat); (None, 2%nat); (Some "B", 3%nat)].

(** An extent one degree wide and seven tenths of a degree high. *)
Definition low_extent : extent := (0, 1, 0, 7 # 10).

Definition empty_world : world nat := {| requests := []; files := ∅ |}.

(** A directory that holds one downloaded land-cover tile; code 13 is not
    an NLCD class of the built-in table. *)
Definition one_tile_world : world nat :=
  {| requests := [];
     files := {[ "out/nlcd_0.tif"%string := LandCover [[11%Z; 13%Z]; [95%Z; 0%Z]] ]} |}.


(** A lookup table without the roughness column. *)
Definition two_column_world : world nat :=
  {| requests := [];
     files := {[ "lookup.csv"%string :=
                   Table {| fieldnames := Some ["value"; "nlcd_name"]%string;
                            records := [] |} ]} |}.

(** An area of interest of one square degree in central Texas that every
    tile intersects. *)
Definition unit_aoi : aoi :=
  {| total_bounds_4326 := (-97, 31, -96, 32);
     total_bounds_5070 := (-95000, 900000, 0, 1011000);
     intersects_4326 := λ _, true;
     intersects_5070 := λ _, true |}.

(** A WFS endpoint that always answers with one polygon. *)
Definition wfs_up : url -> nat -> option (gdf nat) :=
  λ _ _, Some [ {| geometry := 1%nat; mukey := 5%Z |} ].

(** A WCS endpoint that always answers with the same four cells. *)
Definition wcs_up : url -> nat -> option (raster Z) :=
  λ _ _, Some [[11%Z; 13%Z]; [95%Z; 0%Z]].

(** A WFS endpoint whose first answer has data, whose second answer is an
    empty collection and which then stops answering. *)
Definition wfs_flaky : url -> nat -> option (gdf nat) :=
  λ _ n, match n with
         | 0%nat => Some [ {| geometry := 1%nat; mukey := 5%Z |} ]
         | 1%nat => Some []
         | _ => None
         end.

(** A WFS endpoint that serves the tiles west of 96.5 degrees west with one
    polygon each and never the others. *)
Definition wfs_west_only : url -> nat -> option (gdf nat) :=
  λ u _, match u with
         | WfsUrl min_x _ _ _ =>
             if Qle_bool min_x (-965 # 10)
             then Some [ {| geometry := 1%nat; mukey := 5%Z |} ]
             else None
         | _ => None
         end.

Definition tile_url : url := CurveNumbers.create_url 0 0 (1 # 4) (1 # 4).

(** An area of interest of four by three degrees in Texas; its extent in
    EPSG:5070 is 385 km wide and 335 km high. *)
Definition wide_aoi : aoi :=
  {| total_bounds_4326 := (-100, 30, -96, 33);
     total_bounds_5070 := (-385000, 790000, 0, 1125000);
     intersects_4326 := λ _, true;
     intersects_5070 := λ _, true |}.

(** The sixteen tiles of [wide_aoi] in the land-cover grid. *)
Definition wide_tiles : list extent :=
  Eval vm_compute in
    match ManningsN.split_extent (ManningsN.ext_albers wide_aoi)
            (intersects_5070 wide_aoi) with
    | Ok tile_extents => tile_extents
    | Raise _ => []
    end.

(** The second tile of [wide_aoi]: first row, second column. *)
Definition second_tile : extent :=
  Eval vm_compute in
    Tiler.subextent ManningsN.subextent_size ManningsN.tile_margin
      (ManningsN.ext_albers wide_aoi) 0 1.

(** A WCS endpoint that serves the westernmost column of tiles of [wide_aoi]
    and never the others. *)
Definition wcs_east_down : url -> nat -> option (raster Z) :=
  λ u _, match u with
         | WcsUrl _ _ min_x _ =>
             if Qle_bool min_x (-300000) then Some [[11%Z; 13%Z]; [95%Z; 0%Z]]
             else None
         | _ => None
         end.

Definition clip_id : aoi -> gdf nat -> gdf nat := λ _ g, g.
Definition mask_id {A} : aoi -> raster A -> result (raster A) := λ _ r, Ok r.
Definition warp_first {A} : list (raster A) -> option (raster A) := head.

End Examples.

(** ** Vocabulary of the further properties *)



(** The two outputs of the raster pipeline. *)
Definition nlcd_clip (d : string) : string := path_join d "nlcd_clip.tif".
Definition mannings_n_clip (d : string) : string := path_join d "mannings_n_clip.tif".

(** The remap of a land-cover raster through the built-in table. *)
Definition default_remap (raster_data : raster Z) : raster (option Q) :=
  ManningsN.remap (ManningsN.to_dict (records ManningsN.mock_csv_file)) raster_data.

(** The files once the first loop has downloaded and converted the rasters
    [rs] as the tiles [start], [start + 1], ... *)
Fixpoint with_tiles {G} (d : string) (start : nat) (rs : list (raster Z))
    (fs : gmap string (file G)) : gmap string (file G) :=
  match rs with
  | [] => fs
  | r :: rs' =>
      with_tiles d (S start) rs'
        (<[mannings_tile d start := Roughness (default_remap r)]>
           (<[nlcd_tile d start := LandCover r]> fs))
  end.

(** The files once [paths] have been removed, first to last. *)
Fixpoint without {G} (paths : list string) (fs : gmap string (file G))
  : gmap string (file G) :=
  match paths with
  | [] => fs
  | p :: paths' => without paths' (delete p fs)
  end.

(** The names of the first [n] tiles of each kind. *)
Definition nlcd_tiles (d : string) (n : nat) : list string := map (nlcd_tile d) (seq 0 n).
Definition mannings_tiles (d : string) (n : nat) : list string :=
  map (mannings_tile d) (seq 0 n).

(** [path] is not the name of a tile in directory [d]. *)
Definition not_a_tile (d path : string) : Prop :=
  ∀ i, path ≠ nlcd_tile d i ∧ path ≠ mannings_tile d i.

(** ** Inputs used to exercise the further properties *)

Module MoreExamples.

(** The tiles of [Examples.unit_aoi] in the soils grid. *)
Definition unit_tiles : list extent :=
  Eval vm_compute in
    match CurveNumbers.split_extent (CurveNumbers.buffered_extent Examples.unit_aoi)
            (intersects_4326 Examples.unit_aoi) with
    | Ok tile_extents => tile_extents
    | Raise _ => []
    end.

(** Component rows in which map unit 462 has no hydrologic group. *)
Definition table_with_unclassified_key : list CurveNumbers.component :=
  [ {| CurveNumbers.c_mukey := "462"; CurveNumbers.c_comppct_r := Some 100;
       CurveNumbers.c_hydgrp := None |};
    {| CurveNumbers.c_mukey := "657964"; CurveNumbers.c_comppct_r := Some 85;
       CurveNumbers.c_hydgrp := Some "C/D"%string |};
    {| CurveNumbers.c_mukey := "1234"; CurveNumbers.c_comppct_r := None;
       CurveNumbers.c_hydgrp := Some "A"%string |} ].

(** A WCS endpoint that never answers. *)
Definition wcs_down : url -> nat -> option (raster Z) := λ _ _, None.

(** A directory that still holds the land cover of an earlier run. *)
Definition stale_world : world nat :=
  {| requests := [];
     files := {[ "out/nlcd_clip.tif"%string := LandCover [[21%Z; 22%Z]] ]} |}.

End MoreExamples.


(** * Properties *)

(** Unfolds the operations of the world monad. *)
Ltac unfold_world :=
  unfold bind, ret, raise, lift, try_except, earlier_requests, log_request,
    read_path, write_file.

(** ** Auxiliary facts about lists and strings *)

Lemma lookup_map {A B} (f : A → B) (l : list A) (i : nat) :
  map f l !! i = f <$> (l !! i).
Proof.
  revert i. induction l as [|a l IH]; intros [|i]; simpl; auto.
Qed.

Lemma StronglySorted_lookup_lt {A} (R : relation A) (l : list A) (i j : nat) (a b : A) :
  StronglySorted R l → (i < j)%nat → l !! i = Some a → l !! j = Some b → R a b.
Proof.
  intros Hsorted. revert i j. induction Hsorted as [|x l Hsorted IH Hall];
    intros i j Hij Hi Hj; [done |].
  destruct j as [|j]; [lia |]. destruct i as [|i]; simpl in *.
  - injection Hi as ->. rewrite Forall_forall in Hall. apply Hall.
    by apply list_elem_of_lookup_2 in Hj.
  - apply (IH i j); [lia | done | done].
Qed.

Lemma zip_seq_split {A} (l : list A) (k start : nat) (x : A) :
  l !! k = Some x →
  ∃ before after,
    zip (seq start (length l)) l = before ++ ((start + k)%nat, x) :: after ∧
    ∀ it, it ∈ before → (it.1 < start + k)%nat.
Proof.
  revert k start. induction l as [|y l IH]; intros k start Hk; [done |].
  destruct k as [|k]; simpl in Hk.
  - injection Hk as ->. exists [], (zip (seq (S start) (length l)) l).
    split; [by rewrite Nat.add_0_r | intros it Hit; by apply elem_of_nil in Hit].
  - destruct (IH k (S start) Hk) as (before & after & Heq & Hidx).
    exists ((start, y) :: before), after. split.
    + cbn [length seq zip zip_with app]. rewrite Heq.
      by replace (start + S k)%nat with (S start + k)%nat by lia.
    + intros it [-> | Hit]%elem_of_cons; [simpl; lia |].
      specialize (Hidx it Hit). lia.
Qed.

Lemma string_length_app (s t : string) :
  String.length (s ++ t) = (String.length s + String.length t)%nat.
Proof.
  induction s as [|c s IH]; [done |].
  change (S (String.length (s ++ t)) = S (String.length s + String.length t)).
  by rewrite IH.
Qed.

Lemma string_app_inj_r (t s1 s2 : string) : (s1 ++ t = s2 ++ t)%string → s1 = s2.
Proof.
  revert s2. induction s1 as [|c s1 IH]; intros [|c' s2] Heq; [done | | |].
  - apply (f_equal String.length) in Heq.
    change (String.length t = S (String.length (s2 ++ t))) in Heq.
    rewrite string_length_app in Heq. lia.
  - apply (f_equal String.length) in Heq.
    change (S (String.length (s1 ++ t)) = String.length t) in Heq.
    rewrite string_length_app in Heq. lia.
  - change (String c (s1 ++ t) = String c' (s2 ++ t)) in Heq.
    injection Heq as -> Heq. f_equal. by apply IH.
Qed.

Lemma path_join_inj (d n1 n2 : string) : path_join d n1 = path_join d n2 → n1 = n2.
Proof.
  unfold path_join. destruct (decide (d = ""%string)); [done |].
  destruct (ends_with_slash d); intros Heq.
  - by apply (inj (String.app d)) in Heq.
  - apply (inj (String.app d)) in Heq. by apply (inj (String.app "/")) in Heq.
Qed.

(** ** The extent tiler *)

Lemma round_half_even_bounds (r : Q) :
  r - (1 # 2) <= inject_Z (PyNum.round_half_even r) <= r + (1 # 2).
Proof.
  unfold PyNum.round_half_even.
  pose proof (Qfloor_le r) as Hlo. pose proof (Qlt_floor r) as Hhi.
  rewrite inject_Z_plus in Hhi. change (inject_Z 1) with 1 in Hhi.
  destruct (Qcompare_spec (r - inject_Z (Qfloor r)) (1 # 2)) as [Heq | Hlt | Hgt].
  - destruct (Z.even (Qfloor r));
      [| rewrite inject_Z_plus; change (inject_Z 1) with 1]; lra.
  - lra.
  - rewrite inject_Z_plus. change (inject_Z 1) with 1. lra.
Qed.

Lemma round8_bounds (q : Q) :
  q - half_ulp <= PyNum.round8 q <= q + half_ulp.
Proof.
  unfold PyNum.round8.
  pose proof (round_half_even_bounds (q * PyNum.pow10_8)) as H.
  revert H. generalize (inject_Z (PyNum.round_half_even (q * PyNum.pow10_8))).
  intros z. unfold PyNum.pow10_8, half_ulp, inject_Z, Qdiv.
  change (/ (100000000 # 1)) with (1 # 100000000). lra.
Qed.

Lemma ceil_positive (x : Q) : 0 < x → (1 ≤ PyNum.ceil x)%Z.
Proof.
  intros Hx. unfold PyNum.ceil. pose proof (Qle_ceiling x) as Hle.
  assert (Hpos : 0 < inject_Z (Qceiling x)) by lra.
  unfold Qlt, inject_Z in Hpos. simpl in Hpos. lia.
Qed.

Lemma span_over_size_positive (size lo hi : Q) : 0 < size → lo < hi → 0 < (hi - lo) / size.
Proof. intros Hs Hl. apply Qlt_shift_div_l; [done | lra]. Qed.

Lemma inject_Z_nonzero (n : Z) : (1 ≤ n)%Z → ¬ inject_Z n == 0.
Proof. intros Hn Heq. unfold Qeq, inject_Z in Heq. simpl in Heq. lia. Qed.

Lemma inject_Z_positive (n : Z) : (1 ≤ n)%Z → 0 < inject_Z n.
Proof. intros Hn. unfold Qlt, inject_Z. simpl. lia. Qed.






(** ** The retry loop of [get_data] *)

Lemma url_eqb_refl (u : url) : url_eqb u u = true.
Proof.
  destruct u; simpl; rewrite !andb_true_iff; repeat split;
    apply Qeq_bool_iff; reflexivity.
Qed.

Lemma reads_of_logged {G} (u : url) (w : world G) :
  reads_of u (logged u w) = S (reads_of u w).
Proof.
  unfold reads_of, logged. cbn [requests].
  rewrite filter_app, length_app, filter_cons_True by apply url_eqb_refl.
  simpl. lia.
Qed.

Lemma read_file_run {G} (wfs : url -> nat -> option (gdf G)) (u : url) (w : world G) :
  CurveNumbers.read_file wfs u w
  = (match wfs u (reads_of u w) with
     | Some g => Ok g
     | None => Raise DataSourceError
     end, logged u w).
Proof.
  unfold CurveNumbers.read_file. unfold_world.
  fold (reads_of u w). by destruct (wfs u (reads_of u w)).
Qed.

Lemma get_data_loop_step {G} (wfs : url -> nat -> option (gdf G)) (attempt : nat)
    (attempts : list nat) (u : url) (gdf_ssurgo : option (gdf G)) (w : world G) :
  CurveNumbers.get_data_loop wfs (attempt :: attempts) u gdf_ssurgo w
  = CurveNumbers.get_data_loop wfs attempts u
      (match wfs u (reads_of u w) with
       | Some g => Some g
       | None => gdf_ssurgo
       end)
      (logged u w).
Proof.
  cbn [CurveNumbers.get_data_loop]. unfold bind at 1, try_except, bind at 1.
  rewrite read_file_run. by destruct (wfs u (reads_of u w)).
Qed.

(** X1. [get_data] always reads the URL three times; what it returns is decided
    by the last read that did not raise. *)
Lemma get_data_reads_three_times {G} (wfs : url -> nat -> option (gdf G)) (u : url)
    (w : world G) :
  let n := reads_of u w in
  CurveNumbers.get_data wfs u w
  = (Ok (steady_result (last_reply [wfs u n; wfs u (S n); wfs u (S (S n))]) u),
     {| requests := requests w ++ [u; u; u]; files := files w |}).
Proof.
  intros n. unfold CurveNumbers.get_data, Tiler.range. simpl seq.
  unfold bind. rewrite !get_data_loop_step, !reads_of_logged. fold n.
  cbn [CurveNumbers.get_data_loop]. unfold ret, logged. cbn [requests files].
  rewrite <- !(assoc_L (++)). cbn [app].
  unfold last_reply, steady_result.
  destruct (wfs u n) as [g0|], (wfs u (S n)) as [g1|], (wfs u (S (S n))) as [g2|];
    csimpl; try done;
    repeat match goal with |- context [match ?g with [] => _ | _ :: _ => _ end] =>
                             destruct g end; done.
Qed.

(** C5, the code at a failing input. The three reads of one URL give a
    non-empty collection, then an empty one, then an error. [get_data] reads
    three times, keeps the empty collection of the second read and reports the
    URL as failed, although the first read had succeeded with data. With an
    endpoint that always answers it still reads three times. *)
Theorem get_data_discards_a_successful_read :
  CurveNumbers.get_data Examples.wfs_flaky Examples.tile_url Examples.empty_world
  = (Ok (None, Some Examples.tile_url),
     {| requests := [Examples.tile_url; Examples.tile_url; Examples.tile_url];
        files := ∅ |}) ∧
  CurveNumbers.get_data Examples.wfs_up Examples.tile_url Examples.empty_world
  = (Ok (Some [ {| geometry := 1%nat; mukey := 5%Z |} ], None),
     {| requests := [Examples.tile_url; Examples.tile_url; Examples.tile_url];
        files := ∅ |}).
Proof. split; vm_compute; reflexivity. Qed.

(** ** The worker pool of the vector pipeline *)

Lemma Qfloor_quarter (n : Z) : Qfloor (inject_Z n / 4) = (n / 4)%Z.
Proof.
  unfold Qfloor, Qdiv, Qmult, Qinv, inject_Z. simpl.
  by rewrite Z.mul_1_r.
Qed.

Lemma pool_size_is_floor (n : Z) :
  (0 ≤ n)%Z → PyNum.int_of (inject_Z n / 4) = (n / 4)%Z.
Proof.
  intros Hn. unfold PyNum.int_of.
  assert (Hle : Qle_bool 0 (inject_Z n / 4) = true).
  { apply Qle_bool_iff. unfold Qle, Qdiv, Qmult, Qinv, inject_Z. simpl. lia. }
  rewrite Hle. apply Qfloor_quarter.
Qed.

(** C10. The pool is created with [cpu_count // 4] workers; with fewer than
    four CPUs that is zero, [mp.Pool(0)] raises, and [acquire_ssurgo_data]
    ends with an exception in the world it started from: no URL was read and
    no file written, whatever the area of interest. *)
Theorem small_host_aborts_before_fetching {G} `{EqDecision G}
    (wfs : url -> nat -> option (gdf G)) (clip : aoi -> gdf G -> gdf G)
    (cpu_count : Z) (a : aoi) (output_directory : string) (w : world G) :
  (0 ≤ cpu_count < 4)%Z →
  PyNum.int_of (inject_Z cpu_count / 4) = (cpu_count / 4)%Z ∧
  (cpu_count / 4)%Z = 0%Z ∧
  (∃ msg, CurveNumbers.Pool (cpu_count / 4) = Raise (ValueError msg)) ∧
  ∃ e, CurveNumbers.acquire_ssurgo_data wfs clip cpu_count a output_directory w
       = (Raise e, w).
Proof.
  intros Hcpu.
  assert (Hsize : PyNum.int_of (inject_Z cpu_count / 4) = (cpu_count / 4)%Z)
    by (apply pool_size_is_floor; lia).
  assert (Hzero : (cpu_count / 4)%Z = 0%Z) by (apply Z.div_small; lia).
  split; [done |]. split; [done |]. split.
  - rewrite Hzero. by eexists.
  - unfold CurveNumbers.acquire_ssurgo_data, bind, lift.
    destruct (CurveNumbers.split_extent _ _) as [tile_extents | e]; [| by eexists].
    rewrite Hsize, Hzero. by eexists.
Qed.

Lemma small_host_aborts_before_fetching_witness :
  PyNum.int_of (inject_Z 3 / 4) = (3 / 4)%Z ∧
  (3 / 4)%Z = 0%Z ∧
  (∃ msg, CurveNumbers.Pool (3 / 4) = Raise (ValueError msg)) ∧
  ∃ e, CurveNumbers.acquire_ssurgo_data Examples.wfs_up Examples.clip_id 3
         Examples.unit_aoi "out" Examples.empty_world
       = (Raise e, Examples.empty_world).
Proof.
  apply (small_host_aborts_before_fetching Examples.wfs_up Examples.clip_id 3
           Examples.unit_aoi "out" Examples.empty_world).
  lia.
Defined.

(** ** The small-area bypass *)

Lemma mock_columns_present :
  ManningsN.column ManningsN.mock_csv_file "mannings_n" = Ok tt ∧
  ManningsN.column ManningsN.mock_csv_file "value" = Ok tt.
Proof. split; reflexivity. Qed.

Lemma convert_to_mannings_requests {G} (image_path out_img_mannings : string)
    (w : world G) :
  requests (ManningsN.convert_to_mannings image_path out_img_mannings None w).2
  = requests w.
Proof.
  unfold ManningsN.convert_to_mannings. unfold_world.
  destruct mock_columns_present as [-> ->]. cbn beta iota.
  by destruct (files w !! image_path) as [[| | |]|].
Qed.

Lemma clip_image_requests {G}
    (mask_codes : aoi -> raster Z -> result (raster Z))
    (mask_rough : aoi -> raster (option Q) -> result (raster (option Q)))
    (image_path out_img : string) (a : aoi) (w : world G) :
  requests (ManningsN.clip_image mask_codes mask_rough image_path out_img a w).2
  = requests w.
Proof.
  unfold ManningsN.clip_image. unfold_world.
  destruct (files w !! image_path) as [[|r|r|]|]; try done.
  - by destruct (mask_codes a r).
  - by destruct (mask_rough a r).
Qed.

(** X2. For an area of at most 9 square degrees the raster pipeline sends one
    request, for the whole extent, whatever the outcome of the run. *)
Lemma raster_pipeline_fetches_a_small_area_whole {G}
    (wcs : url -> nat -> option (raster Z))
    (mask_codes : aoi -> raster Z -> result (raster Z))
    (mask_rough : aoi -> raster (option Q) -> result (raster (option Q)))
    (warp_codes : list (raster Z) -> option (raster Z))
    (warp_rough : list (raster (option Q)) -> option (raster (option Q)))
    (a : aoi) (output_directory : string) (w : world G) :
  Qle_bool (ManningsN.area_4326 a) 9 = true →
  requests (ManningsN.get_nlcd_and_convert wcs mask_codes mask_rough warp_codes
              warp_rough a output_directory None w).2
  = requests w ++ [ManningsN.get_url (ManningsN.ext_albers a)].
Proof.
  intros Harea. unfold ManningsN.get_nlcd_and_convert.
  unfold bind at 1, ret at 1. rewrite Harea.
  set (out_img := path_join output_directory "nlcd_clip.tif").
  set (out_img_mannings := path_join output_directory "mannings_n_clip.tif").
  set (wcs_url := ManningsN.get_url (ManningsN.ext_albers a)).
  assert (Hget : ∃ r w1, ManningsN.get_img wcs wcs_url out_img w = (Ok r, w1) ∧
                         requests w1 = requests w ++ [wcs_url]).
  { unfold ManningsN.get_img. unfold_world.
    destruct (wcs wcs_url _); eexists _, _; split; reflexivity. }
  destruct Hget as (r & w1 & Hget & Hreq1).
  unfold bind at 1. rewrite Hget.
  pose proof (convert_to_mannings_requests out_img out_img_mannings w1) as Hreq2.
  unfold bind at 1.
  destruct (ManningsN.convert_to_mannings out_img out_img_mannings None w1)
    as [[[]|e] w2]; simpl in Hreq2; [| simpl; congruence].
  pose proof (clip_image_requests mask_codes mask_rough out_img out_img a w2) as Hreq3.
  unfold bind at 1.
  destruct (ManningsN.clip_image mask_codes mask_rough out_img out_img a w2)
    as [[[]|e] w3]; simpl in Hreq3; [| simpl; congruence].
  rewrite clip_image_requests. congruence.
Qed.

(** C1, the code at a failing input. The buffered extent of a one-degree
    square has an area of about 1.22 square degrees, below the threshold of 9,
    yet [acquire_ssurgo_data] runs [split_extent] on it, gets 25 tiles and
    sends 75 reads; the raster pipeline sends one request for the whole
    extent of the same area of interest. *)
Theorem vector_pipeline_tiles_a_small_area :
  Qle_bool (CurveNumbers.study_area (CurveNumbers.buffered_extent Examples.unit_aoi)) 9
  = true ∧
  (∃ tile_extents,
     CurveNumbers.split_extent (CurveNumbers.buffered_extent Examples.unit_aoi)
       (intersects_4326 Examples.unit_aoi) = Ok tile_extents ∧
     length tile_extents = 25%nat) ∧
  (∃ w',
     CurveNumbers.acquire_ssurgo_data Examples.wfs_up Examples.clip_id 4
       Examples.unit_aoi "out" Examples.empty_world
     = (Ok "out/ssurgo_data.gpkg"%string, w') ∧
     length (requests w') = 75%nat) ∧
  (∃ w',
     ManningsN.get_nlcd_and_convert Examples.wcs_up Examples.mask_id Examples.mask_id
       Examples.warp_first Examples.warp_first Examples.unit_aoi "out" None
       Examples.empty_world
     = (Ok tt, w') ∧
     requests w' = [ManningsN.get_url (ManningsN.ext_albers Examples.unit_aoi)]).
Proof.
  split; [vm_compute; reflexivity |].
  split; [eexists; split; [vm_compute; reflexivity | reflexivity] |].
  split; eexists; (split; [vm_compute; reflexivity | vm_compute; reflexivity]).
Qed.

(** ** Tolerance of failed tiles in the vector pipeline

    With an endpoint whose answer for a URL does not change over time, the
    vector pipeline keeps the tiles that are served and fails only when none
    is. *)

Section SteadyEndpoint.
Context {G : Type} `{EqDecision G}.
Variable wfs : url -> nat -> option (gdf G).
Variable served : url -> option (gdf G).
Hypothesis steady : ∀ u n, wfs u n = served u.

Lemma read_file_steady (wfs_url : url) (w : world G) :
  ∃ w', CurveNumbers.read_file wfs wfs_url w
        = (match served wfs_url with
           | Some g => Ok g
           | None => Raise DataSourceError
           end, w') ∧
        files w' = files w.
Proof.
  unfold CurveNumbers.read_file. unfold_world.
  rewrite steady. destruct (served wfs_url); eexists; split; reflexivity.
Qed.

Lemma get_data_loop_steady (attempts : list nat) (wfs_url : url)
    (gdf_ssurgo : option (gdf G)) (w : world G) :
  ∃ w', CurveNumbers.get_data_loop wfs attempts wfs_url gdf_ssurgo w
        = (Ok (match attempts, served wfs_url with
               | _ :: _, Some g => Some g
               | _, _ => gdf_ssurgo
               end), w') ∧
        files w' = files w.
Proof.
  revert gdf_ssurgo w.
  induction attempts as [|attempt attempts IH]; intros gdf_ssurgo w;
    cbn [CurveNumbers.get_data_loop].
  - exists w. split; [| done]. by destruct (served wfs_url).
  - destruct (read_file_steady wfs_url w) as (w1 & Hread & Hf1).
    unfold bind at 1, try_except, bind at 1. rewrite Hread.
    destruct (served wfs_url) as [g|] eqn:Hserved; unfold ret.
    + destruct (IH (Some g) w1) as (w2 & Hrest & Hf2). rewrite Hrest.
      exists w2. split; [| congruence]. by destruct attempts.
    + destruct (IH gdf_ssurgo w1) as (w2 & Hrest & Hf2). rewrite Hrest.
      exists w2. split; [| congruence]. by destruct attempts.
Qed.

Lemma get_data_steady (wfs_url : url) (w : world G) :
  ∃ w', CurveNumbers.get_data wfs wfs_url w
        = (Ok (steady_result (served wfs_url) wfs_url), w') ∧
        files w' = files w.
Proof.
  unfold CurveNumbers.get_data.
  destruct (get_data_loop_steady (Tiler.range 3) wfs_url None w) as (w' & Hloop & Hf).
  unfold bind. rewrite Hloop. exists w'. split; [| done].
  unfold steady_result, ret. cbn.
  by destruct (served wfs_url) as [[|r g]|].
Qed.

Lemma mapM_get_data_steady (url_list : list url) (w : world G) :
  ∃ w', mapM (CurveNumbers.get_data wfs) url_list w
        = (Ok (map (λ u, steady_result (served u) u) url_list), w') ∧
        files w' = files w.
Proof.
  revert w. induction url_list as [|u url_list IH]; intros w; cbn [mapM map].
  - by eexists.
  - destruct (get_data_steady u w) as (w1 & Hu & Hf1).
    destruct (IH w1) as (w2 & Hrest & Hf2).
    unfold bind at 1. rewrite Hu. unfold bind at 1. rewrite Hrest.
    eexists. split; [reflexivity | congruence].
Qed.

Lemma steady_results_split (url_list : list url) :
  omap fst (map (λ u, steady_result (served u) u) url_list)
  = served_data served url_list.
Proof.
  unfold served_data. induction url_list as [|u url_list IH]; [done |].
  cbn [map]. csimpl. by rewrite IH.
Qed.

Lemma steady_failures_stay_failed (url_list : list url) :
  omap fst
    (map (λ u, steady_result (served u) u)
       (omap snd (map (λ u, steady_result (served u) u) url_list)))
  = [].
Proof.
  induction url_list as [|u url_list IH]; [done |].
  cbn [map]. csimpl. unfold steady_result at 2.
  destruct (served u) as [[|r g]|] eqn:Hu; csimpl; try done;
    unfold steady_result at 1; rewrite Hu; csimpl; done.
Qed.

Lemma served_data_nonempty (url_list : list url) :
  served_data served url_list ≠ [] →
  existsb (λ g, negb (CurveNumbers.empty g)) (served_data served url_list) = true.
Proof.
  unfold served_data. induction url_list as [|u url_list IH]; [done |].
  csimpl. unfold steady_result. destruct (served u) as [[|r g]|]; csimpl; auto.
Qed.

(** X3. The vector pipeline with a steady endpoint, at least four CPUs and an
    extent the tiler accepts: when some tile is served with data the run
    returns its output path and writes the clipped, de-duplicated
    concatenation of exactly the served collections; when none is, it raises
    and writes nothing. *)
Lemma vector_pipeline_keeps_the_served_tiles
    (clip : aoi -> gdf G -> gdf G) (cpu_count : Z) (a : aoi)
    (output_directory : string) (tile_extents : list extent) (w : world G) :
  (4 ≤ cpu_count)%Z →
  CurveNumbers.split_extent (CurveNumbers.buffered_extent a) (intersects_4326 a)
  = Ok tile_extents →
  let data := served_data served (CurveNumbers.url_list_of tile_extents) in
  let output_ssurgo := path_join output_directory "ssurgo_data.gpkg" in
  ∃ w',
    files w'
    = (if decide (data = []) then files w
       else <[output_ssurgo := Vector (clip a (CurveNumbers.drop_duplicates (concat data)))]>
              (files w)) ∧
    CurveNumbers.acquire_ssurgo_data wfs clip cpu_count a output_directory w
    = (if decide (data = []) then Raise NoDataRetrieved else Ok output_ssurgo, w').
Proof.
  intros Hcpu Hsplit data output_ssurgo.
  unfold CurveNumbers.acquire_ssurgo_data. unfold bind at 1, lift at 1.
  rewrite Hsplit. unfold bind at 1, lift at 1.
  rewrite pool_size_is_floor by lia.
  assert (Hpool : CurveNumbers.Pool (cpu_count / 4) = Ok tt).
  { unfold CurveNumbers.Pool. destruct (Z.ltb_spec (cpu_count / 4) 1) as [Hlt |]; [| done].
    assert (1 ≤ cpu_count / 4)%Z by (apply Z.div_le_lower_bound; lia). lia. }
  rewrite Hpool.
  destruct (mapM_get_data_steady (CurveNumbers.url_list_of tile_extents) w)
    as (w1 & Hfirst & Hf1).
  unfold bind at 1. rewrite Hfirst. rewrite steady_results_split. fold data.
  set (failed := omap snd _).
  assert (Hretry : ∃ w2,
    match failed with
    | [] => ret (Some data)
    | _ :: _ => CurveNumbers.get_failed_data wfs failed data
    end w1 = (Ok (Some data), w2) ∧ files w2 = files w).
  { destruct failed as [|u failed'] eqn:Hfailed; [by exists w1 |].
    rewrite <- Hfailed.
    destruct (mapM_get_data_steady failed w1) as (w2 & Hsecond & Hf2).
    exists w2. split; [| congruence].
    unfold CurveNumbers.get_failed_data, try_except, bind at 1. rewrite Hsecond.
    unfold ret. subst failed. rewrite steady_failures_stay_failed.
    by rewrite app_nil_r. }
  destruct Hretry as (w2 & Hretry & Hf2).
  unfold bind at 1. rewrite Hretry.
  destruct (decide (data = [])) as [Hnil | Hdata].
  - rewrite Hnil. cbn [existsb negb]. unfold raise. by exists w2.
  - pose proof (served_data_nonempty _ Hdata) as Hany. fold data in Hany.
    rewrite Hany. cbn [negb].
    unfold bind, write_file, ret. eexists. split; [| reflexivity].
    cbn [files]. by rewrite Hf2.
Qed.
End SteadyEndpoint.

(** With an endpoint that serves only the western tiles of [unit_aoi] the
    vector pipeline completes and writes the polygon of the served tiles. *)
Example vector_pipeline_with_some_tiles_down :
  ∃ w',
    CurveNumbers.acquire_ssurgo_data Examples.wfs_west_only Examples.clip_id 8
      Examples.unit_aoi "out" Examples.empty_world
    = (Ok "out/ssurgo_data.gpkg"%string, w') ∧
    files w' !! "out/ssurgo_data.gpkg"%string
    = Some (Vector [ {| geometry := 1%nat; mukey := 5%Z |} ]).
Proof. eexists. split; vm_compute; reflexivity. Qed.

(** ** Tolerance of failed tiles in the raster pipeline *)

Lemma nlcd_tile_inj d i j : nlcd_tile d i = nlcd_tile d j → i = j.
Proof.
  unfold nlcd_tile. intros Heq. apply path_join_inj in Heq.
  apply (inj (String.app "nlcd_")) in Heq.
  apply string_app_inj_r in Heq. by apply (inj pretty) in Heq.
Qed.

Lemma mannings_tile_not_nlcd d i j : mannings_tile d i ≠ nlcd_tile d j.
Proof.
  unfold nlcd_tile, mannings_tile. intros Heq. apply path_join_inj in Heq.
  change (String "m" ("annings_n_" ++ pretty i ++ ".tif")
          = String "n" ("lcd_" ++ pretty j ++ ".tif")) in Heq.
  discriminate Heq.
Qed.

(** One iteration of the first loop touches no file besides the two of its
    own tile. *)
Lemma first_pass_other_files {G} (wcs : url -> nat -> option (raster Z)) (d : string)
    (acc acc' : ManningsN.tiles) (j : nat) (ext : extent) (w w' : world G) (p : string) :
  ManningsN.first_pass wcs d None acc (j, ext) w = (Ok acc', w') →
  p ≠ nlcd_tile d j → p ≠ mannings_tile d j →
  files w' !! p = files w !! p.
Proof.
  unfold ManningsN.first_pass, ManningsN.get_img, ManningsN.convert_to_mannings.
  unfold_world.
  fold (nlcd_tile d j). fold (mannings_tile d j).
  destruct mock_columns_present as [-> ->].
  intros Hrun Hn Hm. cbn beta iota in Hrun.
  destruct (wcs _ _) as [ds|]; cbn [files requests] in Hrun.
  - rewrite lookup_insert_eq in Hrun. injection Hrun as _ <-. cbn [files].
    by rewrite !lookup_insert_ne.
  - destruct (files w !! nlcd_tile d j) as [[| | |]|]; try discriminate Hrun.
    injection Hrun as _ <-. cbn [files]. by rewrite lookup_insert_ne.
Qed.

(** An iteration for a tile that is not served and has no file on disk
    raises. *)
Lemma first_pass_unserved {G} (wcs : url -> nat -> option (raster Z)) (d : string)
    (acc : ManningsN.tiles) (k : nat) (ext : extent) (w : world G) :
  (∀ n, wcs (ManningsN.get_url ext) n = None) →
  files w !! nlcd_tile d k = None →
  ∃ w', ManningsN.first_pass wcs d None acc (k, ext) w
        = (Raise (RasterioIOError (nlcd_tile d k)), w').
Proof.
  intros Hdown Hfresh.
  unfold ManningsN.first_pass, ManningsN.get_img, ManningsN.convert_to_mannings.
  unfold_world.
  fold (nlcd_tile d k). cbn beta iota. rewrite Hdown. cbn [files]. rewrite Hfresh.
  by eexists.
Qed.

Lemma first_loop_raises {G} (wcs : url -> nat -> option (raster Z)) (d : string)
    (k : nat) (ext : extent) (before after : list (nat * extent)) :
  (∀ n, wcs (ManningsN.get_url ext) n = None) →
  (∀ it, it ∈ before → it.1 ≠ k) →
  ∀ (acc : ManningsN.tiles) (w : world G),
    files w !! nlcd_tile d k = None →
    ∃ e w', foldM (ManningsN.first_pass wcs d None) acc (before ++ (k, ext) :: after) w
            = (Raise e, w').
Proof.
  intros Hdown. induction before as [|[j e] before IH]; intros Hidx acc w Hfresh.
  - destruct (first_pass_unserved wcs d acc k ext w Hdown Hfresh) as [w' Hrun].
    cbn [app foldM]. unfold bind at 1. rewrite Hrun. by eexists _, _.
  - cbn [app foldM]. unfold bind at 1.
    destruct (ManningsN.first_pass wcs d None acc (j, e) w) as [[acc'|e'] w'] eqn:Hrun;
      [| by eexists _, _].
    apply IH.
    + intros it Hit. apply Hidx. by right.
    + rewrite (first_pass_other_files _ _ _ _ _ _ _ _ _ Hrun); [done | |].
      * intros Heq. apply nlcd_tile_inj in Heq. apply (Hidx (j, e)); [by left | done].
      * intros Heq. symmetry in Heq. by apply mannings_tile_not_nlcd in Heq.
Qed.

Lemma enumerate_split {A} (l : list A) (k : nat) (x : A) :
  l !! k = Some x →
  ∃ before after,
    ManningsN.enumerate l = before ++ (k, x) :: after ∧
    ∀ it, it ∈ before → it.1 ≠ k.
Proof.
  intros Hk. destruct (zip_seq_split l k 0 x Hk) as (before & after & Heq & Hidx).
  exists before, after. split; [exact Heq |].
  intros it Hit. specialize (Hidx it Hit). simpl in Hidx. lia.
Qed.

(** C2, the code at a failing input. Of the sixteen tiles of [wide_aoi] the
    four of the westernmost column are served and the others never are. The
    first loop calls [convert_to_mannings] on the second tile, which was not
    downloaded, and that raises [RasterioIOError]: the run ends with an
    exception after two requests, the retry pass is never reached and the
    failure is not reported as a warning. *)
Theorem raster_pipeline_raises_on_one_failed_tile :
  ∃ w',
    ManningsN.get_nlcd_and_convert Examples.wcs_east_down Examples.mask_id
      Examples.mask_id Examples.warp_first Examples.warp_first Examples.wide_aoi "out"
      None Examples.empty_world
    = (Raise (RasterioIOError "out/nlcd_1.tif"), w') ∧
    length (requests w') = 2%nat.
Proof. eexists. split; vm_compute; reflexivity. Qed.

(** C3, the defect in general. In a run of the raster pipeline that tiles
    its extent (area above 9) with the built-in lookup table, a tile that the
    coverage service never serves and that has no file from an earlier run
    makes the pipeline raise, whatever happens to the other tiles: it does not
    complete with the data of the tiles that were served. *)
Theorem unserved_tile_aborts_raster_pipeline {G}
    (wcs : url -> nat -> option (raster Z))
    (mask_codes : aoi -> raster Z -> result (raster Z))
    (mask_rough : aoi -> raster (option Q) -> result (raster (option Q)))
    (warp_codes : list (raster Z) -> option (raster Z))
    (warp_rough : list (raster (option Q)) -> option (raster (option Q)))
    (a : aoi) (output_directory : string) (w : world G)
    (tile_extents : list extent) (k : nat) (ext : extent) :
  Qle_bool (ManningsN.area_4326 a) 9 = false →
  ManningsN.split_extent (ManningsN.ext_albers a) (intersects_5070 a) = Ok tile_extents →
  tile_extents !! k = Some ext →
  (∀ n, wcs (ManningsN.get_url ext) n = None) →
  files w !! nlcd_tile output_directory k = None →
  ∃ e w',
    ManningsN.get_nlcd_and_convert wcs mask_codes mask_rough warp_codes warp_rough
      a output_directory None w
    = (Raise e, w').
Proof.
  intros Harea Hsplit Hk Hdown Hfresh.
  destruct (enumerate_split tile_extents k ext Hk) as (before & after & Henum & Hidx).
  unfold ManningsN.get_nlcd_and_convert. unfold bind at 1, ret at 1.
  rewrite Harea, Hsplit. unfold bind at 1, lift at 1. unfold bind at 1.
  rewrite Henum.
  destruct (first_loop_raises wcs output_directory k ext before after Hdown Hidx
              {| ManningsN.failed_img := []; ManningsN.tile_paths := [];
                 ManningsN.tile_paths_mannings := [] |} w Hfresh) as (e & w' & Hrun).
  rewrite Hrun. by eexists _, _.
Qed.

Lemma unserved_tile_aborts_raster_pipeline_witness :
  ∃ e w',
    ManningsN.get_nlcd_and_convert Examples.wcs_east_down Examples.mask_id
      Examples.mask_id Examples.warp_first Examples.warp_first Examples.wide_aoi "out"
      None Examples.empty_world
    = (Raise e, w').
Proof.
  apply (unserved_tile_aborts_raster_pipeline Examples.wcs_east_down Examples.mask_id
           Examples.mask_id Examples.warp_first Examples.warp_first Examples.wide_aoi
           "out" Examples.empty_world Examples.wide_tiles 1%nat Examples.second_tile).
  - vm_compute. reflexivity.
  - vm_compute. reflexivity.
  - reflexivity.
  - intros n. vm_compute. reflexivity.
  - reflexivity.
Defined.

(** In the run of [wide_aoi] above the data of the tile that was downloaded
    reaches neither output: [nlcd_clip.tif] and [mannings_n_clip.tif] do not
    exist afterwards, the file of tile 0 is left behind. *)
Example raster_pipeline_loses_the_successful_tile :
  ∃ e w',
    ManningsN.get_nlcd_and_convert Examples.wcs_east_down Examples.mask_id
      Examples.mask_id Examples.warp_first Examples.warp_first Examples.wide_aoi "out"
      None Examples.empty_world
    = (Raise e, w') ∧
    files w' !! "out/nlcd_clip.tif"%string = None ∧
    files w' !! "out/mannings_n_clip.tif"%string = None ∧
    files w' !! "out/nlcd_0.tif"%string = Some (LandCover [[11%Z; 13%Z]; [95%Z; 0%Z]]).
Proof.
  eexists _, _. split; [vm_compute; reflexivity |].
  split; [vm_compute; reflexivity |]. split; vm_compute; reflexivity.
Qed.

(** ** The hydrologic-group classifier *)

#[local] Instance key_le_total : Total CurveNumbers.key_le.
Proof.
  intros [h1 k1] [h2 k2]. unfold CurveNumbers.key_le. simpl.
  destruct (decide (h1 = h2)) as [-> | Hne].
  - destruct (total String.le k1 k2); [left | right]; right; done.
  - destruct (total String.le h1 h2); [left | right]; left; split; congruence.
Qed.

#[local] Instance key_le_trans : Transitive CurveNumbers.key_le.
Proof.
  intros [h1 k1] [h2 k2] [h3 k3]. unfold CurveNumbers.key_le. simpl.
  intros [[Hne12 Hle12] | [-> Hle12]] [[Hne23 Hle23] | [-> Hle23]].
  - left. split; [| by etrans].
    intros ->. apply Hne12. by apply (anti_symm String.le).
  - left. done.
  - left. done.
  - right. split; [done | by etrans].
Qed.

Lemma key_le_hydgrp (a b : string * string) :
  CurveNumbers.key_le a b → String.le a.1 b.1.
Proof. intros [[_ H] | [-> _]]; [done | reflexivity]. Qed.

Section SortedUnique.
Context {A : Type} `{EqDecision A} (R : relation A) `{!RelDecision R}.
Context `{!Transitive R, !Total R}.

Lemma elem_of_sorted_unique (l : list A) (x : A) :
  x ∈ CurveNumbers.sorted_unique R l ↔ x ∈ l.
Proof.
  unfold CurveNumbers.sorted_unique.
  rewrite merge_sort_Permutation. apply elem_of_remove_dups.
Qed.

Lemma NoDup_sorted_unique (l : list A) : NoDup (CurveNumbers.sorted_unique R l).
Proof.
  unfold CurveNumbers.sorted_unique.
  rewrite merge_sort_Permutation. apply NoDup_remove_dups.
Qed.

Lemma StronglySorted_sorted_unique (l : list A) :
  StronglySorted R (CurveNumbers.sorted_unique R l).
Proof. apply StronglySorted_merge_sort; apply _. Qed.
End SortedUnique.

Lemma elem_of_group_keys (df : list CurveNumbers.component) (h k : string) :
  (h, k) ∈ CurveNumbers.group_keys df ↔ ∃ r, r ∈ df ∧ CurveNumbers.in_group h k r.
Proof.
  unfold CurveNumbers.group_keys, CurveNumbers.in_group.
  rewrite list_elem_of_omap. split.
  - intros (r & Hin & Hr). exists r. split; [done |].
    destruct (CurveNumbers.c_hydgrp r) as [h'|]; simplify_eq/=. done.
  - intros (r & Hin & Hh & Hk). exists r. split; [done |]. rewrite Hh. simpl. by rewrite Hk.
Qed.

Lemma grouped_data_lookup (df : list CurveNumbers.component) (i : nat)
    (h k : string) (p : Q) :
  CurveNumbers.grouped_data df !! i = Some (h, k, p)
  ↔ CurveNumbers.sorted_unique CurveNumbers.key_le (CurveNumbers.group_keys df) !! i
      = Some (h, k)
    ∧ p = CurveNumbers.pct_of df h k.
Proof.
  unfold CurveNumbers.grouped_data. rewrite lookup_map.
  destruct (_ !! i) as [[h' k']|]; simpl; split.
  - intros [= -> -> ->]. done.
  - intros [[= -> ->] ->]. done.
  - done.
  - intros [? _]. done.
Qed.

Lemma idxmax_from_first_max (l l1 l2 : list (nat * Q)) (best_i : nat) (best : Q) :
  Forall (λ jq : nat * Q, jq.2 < best) l1 →
  Forall (λ jq : nat * Q, jq.2 <= best) l2 →
  ∃ q, first_max (l1 ++ (best_i, best) :: l2 ++ l)
                 (CurveNumbers.idxmax_from best_i best l) q.
Proof.
  revert l1 l2 best_i best.
  induction l as [|[j q] l IH]; intros l1 l2 best_i best Hl1 Hl2; simpl.
  - exists best, l1, l2. by rewrite app_nil_r.
  - destruct (Qle_bool q best) eqn:Hle.
    + apply Qle_bool_iff in Hle.
      destruct (IH l1 (l2 ++ [(j, q)]) best_i best) as [q' Hq']; [done | |].
      * apply Forall_app. split; [done |]. by apply Forall_singleton.
      * exists q'. by rewrite <- (assoc_L (++)) in Hq'.
    + assert (Hlt : best < q).
      { apply Qnot_le_lt. intros Hc. apply Qle_bool_iff in Hc. congruence. }
      destruct (IH (l1 ++ (best_i, best) :: l2) [] j q) as [q' Hq'].
      * apply Forall_app. split.
        { eapply Forall_impl; [exact Hl1 |]. intros [? ?] ?. simpl in *. lra. }
        apply Forall_cons. split; [done |].
        eapply Forall_impl; [exact Hl2 |]. intros [? ?] ?. simpl in *. lra.
      * done.
      * exists q'. by rewrite <- (assoc_L (++)) in Hq'.
Qed.

Lemma idxmax_first_max (l : list (nat * Q)) :
  l ≠ [] → ∃ i q, CurveNumbers.idxmax l = Some i ∧ first_max l i q.
Proof.
  destruct l as [|[i q] l]; [done |]. intros _.
  destruct (idxmax_from_first_max l [] [] i q) as [q' Hq']; [done | done |].
  exists (CurveNumbers.idxmax_from i q l), q'. done.
Qed.

Lemma pct_rows_from_cons (start : nat) (r : string * string * Q)
    (rows : list (string * string * Q)) (k : string) :
  pct_rows_from start (r :: rows) k
  = (if decide (r.1.2 = k) then [(start, r.2)] else [])
    ++ pct_rows_from (S start) rows k.
Proof.
  unfold pct_rows_from. cbn [length seq zip zip_with]. csimpl.
  by destruct (decide (r.1.2 = k)).
Qed.

Lemma elem_of_pct_rows_from (start : nat) (rows : list (string * string * Q))
    (k : string) (j : nat) (q : Q) :
  (j, q) ∈ pct_rows_from start rows k
  ↔ (start ≤ j)%nat ∧ ∃ h, rows !! (j - start)%nat = Some (h, k, q).
Proof.
  revert start. induction rows as [|[[h' k'] q'] rows IH]; intros start.
  - unfold pct_rows_from. simpl. split; [intros H; by apply elem_of_nil in H |].
    intros [_ [h Hh]]. done.
  - rewrite pct_rows_from_cons, elem_of_app, IH. cbn [fst snd]. split.
    + intros [Hhead | [Hle [h Hh]]].
      * destruct (decide (k' = k)) as [-> |]; [| by apply elem_of_nil in Hhead].
        apply list_elem_of_singleton in Hhead as [= -> ->].
        split; [lia |]. exists h'. by rewrite Nat.sub_diag.
      * split; [lia |]. exists h.
        replace (j - start)%nat with (S (j - S start)) by lia. done.
    + intros [Hle [h Hh]]. destruct (decide (j = start)) as [-> | Hne].
      * left. rewrite Nat.sub_diag in Hh. simpl in Hh. injection Hh as -> -> ->.
        rewrite decide_True by done. by apply list_elem_of_singleton.
      * right. split; [lia |]. exists h.
        replace (j - start)%nat with (S (j - S start)) in Hh by lia. done.
Qed.

Lemma pct_rows_from_sorted (start : nat) (rows : list (string * string * Q)) (k : string) :
  StronglySorted (λ a b : nat * Q, (a.1 < b.1)%nat) (pct_rows_from start rows k).
Proof.
  revert start. induction rows as [|r rows IH]; intros start.
  - unfold pct_rows_from. simpl. constructor.
  - rewrite pct_rows_from_cons. destruct (decide (r.1.2 = k)); simpl; [| apply IH].
    constructor; [apply IH |]. apply Forall_forall. intros [j q] Hin.
    apply elem_of_pct_rows_from in Hin as [Hle _]. simpl. lia.
Qed.

Lemma pct_rows_is_from_zero (rows : list (string * string * Q)) (k : string) :
  CurveNumbers.pct_rows rows k = pct_rows_from 0 rows k.
Proof. reflexivity. Qed.

Lemma elem_of_sorted_keys (df : list CurveNumbers.component) (h k : string) :
  (h, k) ∈ sorted_keys df ↔ ∃ r, r ∈ df ∧ CurveNumbers.in_group h k r.
Proof.
  unfold sorted_keys.
  rewrite (elem_of_sorted_unique CurveNumbers.key_le). apply elem_of_group_keys.
Qed.

Lemma elem_of_pct_rows (df : list CurveNumbers.component) (k : string) (j : nat) (q : Q) :
  (j, q) ∈ CurveNumbers.pct_rows (CurveNumbers.grouped_data df) k
  ↔ ∃ h, sorted_keys df !! j = Some (h, k) ∧ q = CurveNumbers.pct_of df h k.
Proof.
  rewrite pct_rows_is_from_zero, elem_of_pct_rows_from, Nat.sub_0_r. split.
  - intros [_ [h Hh]]. exists h. by apply grouped_data_lookup.
  - intros [h Hh]. split; [lia |]. exists h. by apply grouped_data_lookup.
Qed.

(** [idxmax] over the rows of one [mukey] finds its first maximal group. *)
Lemma idxmax_of_key (df : list CurveNumbers.component) (k h : string) :
  (h, k) ∈ sorted_keys df →
  ∃ i row,
    CurveNumbers.idxmax (CurveNumbers.pct_rows (CurveNumbers.grouped_data df) k) = Some i ∧
    CurveNumbers.grouped_data df !! i = Some row ∧
    first_maximal_group df k row.
Proof.
  intros Hh. apply list_elem_of_lookup in Hh as [j0 Hj0].
  set (l := CurveNumbers.pct_rows (CurveNumbers.grouped_data df) k).
  assert (Hne : l ≠ []).
  { assert (Hin : (j0, CurveNumbers.pct_of df h k) ∈ l)
      by (apply elem_of_pct_rows; eauto).
    intros Hnil. rewrite Hnil in Hin. by apply elem_of_nil in Hin. }
  destruct (idxmax_first_max l Hne) as (i & q & Hidx & l1 & l2 & Hl & Hl1 & Hl2).
  assert (Hiq : (i, q) ∈ l).
  { rewrite Hl. apply elem_of_app. right. by left. }
  apply elem_of_pct_rows in Hiq as (g & Hg & ->).
  exists i, (g, k, CurveNumbers.pct_of df g k).
  split; [done |]. split; [by apply grouped_data_lookup |].
  exists g. split; [done |]. split.
  { apply elem_of_sorted_keys. by apply list_elem_of_lookup_2 in Hg. }
  intros g' Hg'. apply elem_of_sorted_keys, list_elem_of_lookup in Hg' as [j Hj].
  assert (Hin : (j, CurveNumbers.pct_of df g' k) ∈ l)
    by (apply elem_of_pct_rows; eauto).
  rewrite Hl in Hin.
  apply elem_of_app in Hin as [Hin | Hin]; [| apply elem_of_cons in Hin as [Heq | Hin]].
  - rewrite Forall_forall in Hl1. specialize (Hl1 _ Hin). simpl in Hl1.
    split; [lra | intros Htie; lra].
  - injection Heq as -> Hq. rewrite Hg in Hj. injection Hj as ->.
    split; [apply Qle_refl | reflexivity].
  - rewrite Forall_forall in Hl2. specialize (Hl2 _ Hin). simpl in Hl2.
    split; [done |]. intros _.
    assert (Hlt : (i < j)%nat).
    { pose proof (pct_rows_from_sorted 0 (CurveNumbers.grouped_data df) k) as Hsorted.
      rewrite <- pct_rows_is_from_zero in Hsorted. fold l in Hsorted.
      rewrite Hl in Hsorted. apply StronglySorted_app_1_r in Hsorted.
      apply StronglySorted_cons in Hsorted as [Hall _].
      rewrite Forall_forall in Hall. exact (Hall _ Hin). }
    pose proof (StronglySorted_sorted_unique CurveNumbers.key_le
                  (CurveNumbers.group_keys df)) as Hkeys.
    apply (key_le_hydgrp (g, k) (g', k)).
    exact (StronglySorted_lookup_lt _ _ _ _ _ _ Hkeys Hlt Hg Hj).
Qed.

Lemma first_maximal_group_mukey (df : list CurveNumbers.component) (k : string)
    (row : string * string * Q) :
  first_maximal_group df k row → row.1.2 = k.
Proof. intros (g & -> & _). done. Qed.

Lemma hydrogroup_rows (df : list CurveNumbers.component) (mukeys : list string) :
  (∀ k, k ∈ mukeys → ∃ h, (h, k) ∈ sorted_keys df) →
  Forall2 (first_maximal_group df) mukeys
    (omap (λ i, CurveNumbers.grouped_data df !! i)
          (omap (λ k, CurveNumbers.idxmax
                        (CurveNumbers.pct_rows (CurveNumbers.grouped_data df) k))
                mukeys)).
Proof.
  induction mukeys as [|k mukeys IH]; intros Hkeys; csimpl; [constructor |].
  destruct (Hkeys k) as [h Hh]; [by left |].
  destruct (idxmax_of_key df k h Hh) as (i & row & -> & Hrow & Hmax).
  csimpl. rewrite Hrow. csimpl. constructor; [done |].
  apply IH. intros k' Hk'. apply Hkeys. by right.
Qed.

Lemma filter_other_mukey (df : list CurveNumbers.component) (mukeys : list string)
    (rows : list (string * string * Q)) (k : string) :
  Forall2 (first_maximal_group df) mukeys rows → k ∉ mukeys →
  filter (λ r : string * string * Q, r.1.2 = k) rows = [].
Proof.
  induction 1 as [|k' row mukeys rows Hrow _ IH]; intros Hk; [done |].
  apply not_elem_of_cons in Hk as [Hne Hk].
  rewrite filter_cons_False; [by apply IH |].
  rewrite (first_maximal_group_mukey _ _ _ Hrow). congruence.
Qed.


Lemma elem_of_mukeys (df : list CurveNumbers.component) (k : string) :
  k ∈ CurveNumbers.sorted_unique String.le
        (map (λ r : string * string * Q, r.1.2) (CurveNumbers.grouped_data df))
  ↔ ∃ h, (h, k) ∈ sorted_keys df.
Proof.
  rewrite (elem_of_sorted_unique String.le). split.
  - intros Hin. apply list_elem_of_fmap in Hin as ([[h k'] p] & -> & Hin).
    apply list_elem_of_lookup in Hin as [i Hi].
    apply grouped_data_lookup in Hi as [Hi _]. exists h.
    by apply list_elem_of_lookup_2 in Hi.
  - intros [h Hh]. apply list_elem_of_lookup in Hh as [i Hi].
    apply list_elem_of_fmap. exists (h, k, CurveNumbers.pct_of df h k).
    split; [done |]. apply (list_elem_of_lookup_2 _ i). by apply grouped_data_lookup.
Qed.



(** X4. A key whose rows all have a null group gets no row. *)
Lemma no_group_no_row (df : list CurveNumbers.component) (k : string) :
  (∀ r, r ∈ df → CurveNumbers.c_mukey r = k → CurveNumbers.c_hydgrp r = None) →
  filter (λ r : string * string * Q, r.1.2 = k) (CurveNumbers.hydrogroup_data df) = [].
Proof.
  intros Hnull. unfold CurveNumbers.hydrogroup_data. cbv zeta.
  apply (filter_other_mukey df
           (CurveNumbers.sorted_unique String.le
              (map (λ r : string * string * Q, r.1.2) (CurveNumbers.grouped_data df)))).
  - apply hydrogroup_rows. intros k' Hk'. by apply elem_of_mukeys.
  - intros Hin. apply elem_of_mukeys in Hin as [h Hh].
    apply elem_of_sorted_keys in Hh as (r & Hr & Hg & Hk).
    rewrite (Hnull r Hr Hk) in Hg. discriminate Hg.
Qed.

(** The specification's test: groups A 30, B 45 (20 + 25) and C 25 give B;
    a tie between A and B/D gives A, the null group of 60 counts for
    nothing. *)
Example classifier_on_component_table :
  CurveNumbers.hydrogroup_data Examples.component_table
  = [("A"%string, "123"%string, 20); ("B"%string, "657964"%string, 0 + 20 + 25)].
Proof. vm_compute. reflexivity. Qed.

(** ** Label normalisation *)

Lemma replace_length old new s :
  String.length (CurveNumbers.replace old new s) = String.length s.
Proof. induction s as [|c s IH]; simpl; [done | by rewrite IH]. Qed.

Lemma replace_get old new s i c :
  String.get i s = Some c →
  String.get i (CurveNumbers.replace old new s)
  = Some (if Ascii.eqb c old then new else c).
Proof.
  revert i. induction s as [|c' s IH]; intros i; simpl; [done |].
  destruct i as [|i]; [intros [= ->]; done | apply IH].
Qed.

Lemma replace_absent old new s :
  ¬ occurs old s → CurveNumbers.replace old new s = s.
Proof.
  induction s as [|c s IH]; intros Hno; simpl; [done |].
  destruct (Ascii.eqb_spec c old) as [-> | Hne].
  - exfalso. apply Hno. by exists 0%nat.
  - f_equal. apply IH. intros [i Hi]. apply Hno. by exists (S i).
Qed.

Lemma replace_removes old new s :
  old ≠ new → ¬ occurs old (CurveNumbers.replace old new s).
Proof.
  intros Hne [i Hi]. revert i Hi.
  induction s as [|c s IH]; intros i; simpl; [by destruct i |].
  destruct i as [|i]; [| apply IH].
  intros [= Hc]. destruct (Ascii.eqb_spec c old); congruence.
Qed.

Example replace_dual_class : CurveNumbers.replace "/" "-" "A/D" = "A-D"%string.
Proof. reflexivity. Qed.

(** C9. Every label [label] of the final soil-class frame comes from a
    non-null hydrologic group [hydgrp] of the dissolved frame, has the same
    length, carries ["-"] wherever [hydgrp] carries ["/"] and the character of
    [hydgrp] everywhere else, contains no ["/"], and equals [hydgrp] when
    [hydgrp] contains no ["/"]. *)
Theorem soil_class_label_normalised {G} (dissolved : list (option string * G))
    (label : string) (g : G) :
  (label, g) ∈ CurveNumbers.soil_classes dissolved →
  ∃ hydgrp, (Some hydgrp, g) ∈ dissolved ∧
    String.length label = String.length hydgrp ∧
    (∀ i c, String.get i hydgrp = Some c →
            String.get i label = Some (if Ascii.eqb c "/" then "-"%char else c)) ∧
    ¬ occurs "/" label ∧
    (¬ occurs "/" hydgrp → label = hydgrp).
Proof.
  unfold CurveNumbers.soil_classes. intros Hin.
  apply list_elem_of_fmap in Hin as ([c g'] & [= -> ->] & Hin).
  apply list_elem_of_omap in Hin as ([oc g''] & Hin & Hsome).
  simpl in Hsome. destruct oc as [c'|]; simplify_eq/=.
  exists c. split; [done |]. split; [apply replace_length |].
  split; [intros i ch; apply replace_get |].
  split; [by apply replace_removes | apply replace_absent].
Qed.

Lemma soil_class_label_normalised_witness :
  ("A-D"%string, 1%nat) ∈ CurveNumbers.soil_classes Examples.dissolved_frame ∧
  ∃ hydgrp, (Some hydgrp, 1%nat) ∈ Examples.dissolved_frame ∧
    String.length "A-D" = String.length hydgrp ∧
    (∀ i c, String.get i hydgrp = Some c →
            String.get i "A-D" = Some (if Ascii.eqb c "/" then "-"%char else c)) ∧
    ¬ occurs "/" "A-D" ∧
    (¬ occurs "/" hydgrp → "A-D"%string = hydgrp).
Proof.
  assert (Hin : ("A-D"%string, 1%nat)
                ∈ CurveNumbers.soil_classes Examples.dissolved_frame)
    by (vm_compute; constructor).
  split; [exact Hin |].
  exact (soil_class_label_normalised Examples.dissolved_frame "A-D" 1%nat Hin).
Defined.

(** ** The roughness remapper *)







(** ** Validation of the lookup table *)

Lemma check_fields_ok fields names :
  fields ⊆ names → ManningsN.check_fields fields names = Ok tt.
Proof.
  induction fields as [|f fields IH]; intros Hsub; simpl; [done |].
  rewrite decide_False.
  - apply IH. intros x Hx. apply Hsub. by right.
  - intros Hn. apply Hn, Hsub. by left.
Qed.





(** The missing [mannings_n] column of the specification's test. *)
Example missing_mannings_n_is_fatal :
  ManningsN.get_nlcd_and_convert Examples.wcs_up Examples.mask_id Examples.mask_id
    Examples.warp_first Examples.warp_first Examples.unit_aoi "out"
    (Some "lookup.csv"%string) Examples.two_column_world
  = (Raise (ValueError "Required field 'mannings_n' not found in CSV file"),
     Examples.two_column_world).
Proof. vm_compute. reflexivity. Qed.

(** * Further properties of the two modules *)

(** ** The size and the overlap of the tiles *)

Lemma quotient_at_most_size (size span : Q) (n : Z) :
  0 < size → 0 < span → n = PyNum.ceil (span / size) → span / inject_Z n <= size.
Proof.
  intros Hsize Hspan ->. unfold PyNum.ceil.
  pose proof (Qle_ceiling (span / size)) as Hceil.
  pose proof (ceil_positive (span / size)) as Hone.
  assert (Hpos : 0 < span / size) by (apply Qlt_shift_div_l; lra).
  specialize (Hone Hpos). unfold PyNum.ceil in Hone.
  pose proof (inject_Z_positive _ Hone) as Hn.
  apply Qle_shift_div_r; [done |].
  assert (Hmul : span / size * size <= inject_Z (Qceiling (span / size)) * size).
  { apply Qmult_le_r; done. }
  assert (Hcancel : span / size * size == span) by (field; lra).
  lra.
Qed.

(** X5. For an extent with [min < max] on both axes, a positive tile size
    and a margin that is not negative, no emitted rectangle is wider than the
    tile size plus twice the margin plus two half units of the eighth
    decimal, or higher than that plus one more half unit: the requests stay
    within the size the tiler aims at. *)
Theorem tiles_do_not_exceed_the_tile_size
    (size margin min_x max_x min_y max_y : Q) (row col : nat) :
  0 < size → 0 <= margin → min_x < max_x → min_y < max_y →
  let '(x0, x1, y0, y1) :=
    Tiler.subextent size margin (min_x, max_x, min_y, max_y) row col in
  x1 - x0 <= size + 2 * margin + 2 * half_ulp ∧
  y1 - y0 <= size + 2 * margin + 3 * half_ulp.
Proof.
  intros Hsize Hmargin Hx Hy. unfold Tiler.subextent.
  set (e := (min_x, max_x, min_y, max_y)).
  assert (Hsx : Tiler.step_x size e <= size).
  { unfold Tiler.step_x, e. apply quotient_at_most_size; [done | lra | done]. }
  assert (Hsy : Tiler.step_y size e <= size + half_ulp).
  { unfold Tiler.step_y, e.
    pose proof (round8_bounds
                  ((max_y - min_y) / inject_Z (Tiler.num_rows size (min_x, max_x, min_y, max_y))))
      as [_ Hhi].
    pose proof (quotient_at_most_size size (max_y - min_y)
                  (Tiler.num_rows size (min_x, max_x, min_y, max_y)) Hsize) as Hq.
    assert (0 < max_y - min_y) by lra. specialize (Hq H eq_refl). lra. }
  rewrite !inject_Z_plus. change (inject_Z 1) with 1.
  repeat match goal with
         | |- context [PyNum.round8 ?q] =>
             let Hb := fresh "Hb" in
             pose proof (round8_bounds q) as Hb;
             let r := fresh "r" in
             set (r := PyNum.round8 q) in *; clearbody r
         end.
  split; lra.
Qed.

Lemma tiles_do_not_exceed_the_tile_size_witness :
  let '(x0, x1, y0, y1) :=
    Tiler.subextent (1 # 4) (15 # 10000) Examples.low_extent 2 3 in
  x1 - x0 <= (1 # 4) + 2 * (15 # 10000) + 2 * half_ulp ∧
  y1 - y0 <= (1 # 4) + 2 * (15 # 10000) + 3 * half_ulp.
Proof.
  apply (tiles_do_not_exceed_the_tile_size (1 # 4) (15 # 10000) 0 1 0 (7 # 10) 2 3);
    reflexivity || (intros H; discriminate H).
Defined.

(** Among [n >= 1] consecutive steps of length [s] from [lo], the last one
    that starts at or below [v]. *)
Lemma last_step_below (lo s v : Q) (n : nat) :
  (1 ≤ n)%nat → lo <= v →
  ∃ r, (r < n)%nat ∧ lo + inject_Z (Z.of_nat r) * s <= v ∧
       (S r = n ∨ v < lo + inject_Z (Z.of_nat r + 1) * s).
Proof.
  intros Hn Hlo. induction n as [|n IH]; [lia |].
  destruct n as [|n].
  - exists 0%nat. split; [lia |]. split; [| by left].
    change (inject_Z (Z.of_nat 0)) with 0. lra.
  - destruct IH as (r & Hr & Hbelow & Hnext); [lia |].
    destruct Hnext as [Hlast | Hnext].
    + destruct (Qlt_le_dec v (lo + inject_Z (Z.of_nat r + 1) * s)) as [Hlt | Hge].
      * exists r. split; [lia |]. split; [done | by right].
      * exists (S r). split; [lia |]. split; [| left; lia].
        by rewrite Nat2Z.inj_succ, <- Z.add_1_r.
    + exists r. split; [lia |]. split; [done | by right].
Qed.

Lemma last_column_edge (size min_x max_x min_y max_y : Q) :
  0 < size → min_x < max_x →
  let e : extent := (min_x, max_x, min_y, max_y) in
  (1 ≤ Tiler.num_cols size e)%Z ∧
  min_x + inject_Z (Tiler.num_cols size e) * Tiler.step_x size e == max_x.
Proof.
  intros Hsize Hx e.
  assert (Hcols : (1 ≤ Tiler.num_cols size e)%Z)
    by (apply ceil_positive, span_over_size_positive; done).
  split; [done |]. unfold Tiler.step_x, e. fold e. field.
  by apply inject_Z_nonzero.
Qed.

Lemma last_row_edge (size min_x max_x min_y max_y : Q) :
  0 < size → min_y < max_y →
  let e : extent := (min_x, max_x, min_y, max_y) in
  (1 ≤ Tiler.num_rows size e)%Z ∧
  max_y - inject_Z (Tiler.num_rows size e) * half_ulp
  <= min_y + inject_Z (Tiler.num_rows size e) * Tiler.step_y size e.
Proof.
  intros Hsize Hy e.
  assert (Hrows : (1 ≤ Tiler.num_rows size e)%Z)
    by (apply ceil_positive, span_over_size_positive; done).
  split; [done |].
  pose proof (inject_Z_positive _ Hrows) as Hpos.
  pose proof (inject_Z_nonzero _ Hrows) as Hnz.
  unfold Tiler.step_y, e. fold e.
  pose proof (round8_bounds ((max_y - min_y) / inject_Z (Tiler.num_rows size e)))
    as [Hlo _].
  apply (Qmult_le_l _ _ _ Hpos) in Hlo.
  assert (Hspan : max_y - min_y
                  == inject_Z (Tiler.num_rows size e)
                     * ((max_y - min_y) / inject_Z (Tiler.num_rows size e)))
    by (field; exact Hnz).
  lra.
Qed.

(** X6. When the margin is at least [rows + 1] half units of the eighth
    decimal, the emitted rectangles leave no gap: every point of an extent
    with [min < max] on both axes lies in the emitted rectangle of some cell
    of the grid, although the rows are cut with a rounded step. *)
Theorem margin_closes_the_rounding_gaps
    (size margin min_x max_x min_y max_y x y : Q) :
  0 < size → min_x < max_x → min_y < max_y →
  let e : extent := (min_x, max_x, min_y, max_y) in
  (inject_Z (Tiler.num_rows size e) + 1) * half_ulp <= margin →
  min_x <= x <= max_x → min_y <= y <= max_y →
  ∃ row col,
    (Z.of_nat row < Tiler.num_rows size e)%Z ∧
    (Z.of_nat col < Tiler.num_cols size e)%Z ∧
    let '(x0, x1, y0, y1) := Tiler.subextent size margin e row col in
    x0 <= x <= x1 ∧ y0 <= y <= y1.
Proof.
  intros Hsize Hx Hy e Hmargin [Hx0 Hx1] [Hy0 Hy1].
  destruct (last_column_edge size min_x max_x min_y max_y Hsize Hx) as [Hcols Hlast_x].
  destruct (last_row_edge size min_x max_x min_y max_y Hsize Hy) as [Hrows Hlast_y].
  fold e in Hcols, Hlast_x, Hrows, Hlast_y.
  pose proof (inject_Z_positive _ Hrows) as Hrows_pos.
  assert (Hulp : 0 < half_ulp) by reflexivity.
  assert (Hgap : 0 <= inject_Z (Tiler.num_rows size e) * half_ulp)
    by (apply Qmult_le_0_compat; lra).
  destruct (last_step_below min_y (Tiler.step_y size e) y
              (Z.to_nat (Tiler.num_rows size e))) as (row & Hrow & Hrow_lo & Hrow_hi);
    [lia | done |].
  destruct (last_step_below min_x (Tiler.step_x size e) x
              (Z.to_nat (Tiler.num_cols size e))) as (col & Hcol & Hcol_lo & Hcol_hi);
    [lia | done |].
  exists row, col. split; [lia |]. split; [lia |].
  assert (Hx_hi : x <= min_x + inject_Z (Z.of_nat col + 1) * Tiler.step_x size e).
  { destruct Hcol_hi as [Hlast | Hlt]; [| lra].
    replace (Z.of_nat col + 1)%Z with (Tiler.num_cols size e) by lia. lra. }
  assert (Hy_hi : y <= min_y + inject_Z (Z.of_nat row + 1) * Tiler.step_y size e
                       + inject_Z (Tiler.num_rows size e) * half_ulp).
  { destruct Hrow_hi as [Hlast | Hlt]; [| lra].
    replace (Z.of_nat row + 1)%Z with (Tiler.num_rows size e) by lia. lra. }
  unfold Tiler.subextent. fold e. unfold e at 1. cbv beta iota zeta.
  repeat match goal with
         | |- context [PyNum.round8 ?q] =>
             let Hb := fresh "Hb" in
             pose proof (round8_bounds q) as Hb;
             let r := fresh "r" in
             set (r := PyNum.round8 q) in *; clearbody r
         end.
  split; split; lra.
Qed.

Lemma margin_closes_the_rounding_gaps_witness :
  ∃ row col,
    (Z.of_nat row < Tiler.num_rows (1 # 4) Examples.low_extent)%Z ∧
    (Z.of_nat col < Tiler.num_cols (1 # 4) Examples.low_extent)%Z ∧
    let '(x0, x1, y0, y1) :=
      Tiler.subextent (1 # 4) (15 # 10000) Examples.low_extent row col in
    x0 <= 1 # 2 <= x1 ∧ y0 <= 7 # 10 <= y1.
Proof.
  apply (margin_closes_the_rounding_gaps (1 # 4) (15 # 10000) 0 1 0 (7 # 10)
           (1 # 2) (7 # 10));
    try reflexivity; try (intros H; discriminate H);
    split; intros H; discriminate H.
Defined.

(** ** The vector fetch and its retry pass *)








Lemma vector_pipeline_keeps_the_served_tiles_witness :
  let served := λ u, Examples.wfs_west_only u 0%nat in
  let data := served_data served (CurveNumbers.url_list_of MoreExamples.unit_tiles) in
  let output_ssurgo := path_join "out" "ssurgo_data.gpkg" in
  ∃ w',
    files w'
    = (if decide (data = []) then files Examples.empty_world
       else <[output_ssurgo :=
                Vector (Examples.clip_id Examples.unit_aoi
                          (CurveNumbers.drop_duplicates (concat data)))]>
              (files Examples.empty_world)) ∧
    CurveNumbers.acquire_ssurgo_data Examples.wfs_west_only Examples.clip_id 8
      Examples.unit_aoi "out" Examples.empty_world
    = (if decide (data = []) then Raise NoDataRetrieved else Ok output_ssurgo, w').
Proof.
  intros served.
  apply (vector_pipeline_keeps_the_served_tiles Examples.wfs_west_only served
           (λ u n, eq_refl) Examples.clip_id 8 Examples.unit_aoi "out"
           MoreExamples.unit_tiles Examples.empty_world).
  - lia.
  - vm_compute. reflexivity.
Defined.

(** ** The buffer and the merge of the vector pipeline *)

Lemma buffered_axis (lo hi : Q) :
  lo <= hi →
  Qabs (hi - lo) == hi - lo ∧
  Qabs (hi - (lo - Qabs (hi - lo) * (5 # 100))) == (105 # 100) * (hi - lo).
Proof.
  intros Hle.
  assert (H1 : Qabs (hi - lo) == hi - lo) by (apply Qabs_pos; lra).
  split; [done |]. rewrite H1. rewrite Qabs_pos; lra.
Qed.

(** X9. The buffer of [acquire_ssurgo_data] is not symmetric: the minima
    move out by 5 percent of the span, the maxima by 5.25 percent, because the
    second pair of updates measures the span from the minimum that has already
    moved. The buffered extent contains the bounding box and its area is
    1.1025 squared times the area of the box. *)
Theorem buffer_is_wider_on_the_far_side (a : aoi) (min_x min_y max_x max_y : Q) :
  total_bounds_4326 a = (min_x, min_y, max_x, max_y) →
  min_x <= max_x → min_y <= max_y →
  let '(buffered_min_x, buffered_max_x, buffered_min_y, buffered_max_y) :=
    CurveNumbers.buffered_extent a in
  buffered_min_x == min_x - (5 # 100) * (max_x - min_x) ∧
  buffered_max_x == max_x + (525 # 10000) * (max_x - min_x) ∧
  buffered_min_y == min_y - (5 # 100) * (max_y - min_y) ∧
  buffered_max_y == max_y + (525 # 10000) * (max_y - min_y) ∧
  (buffered_min_x <= min_x ∧ max_x <= buffered_max_x ∧
   buffered_min_y <= min_y ∧ max_y <= buffered_max_y) ∧
  CurveNumbers.study_area (CurveNumbers.buffered_extent a)
  == (11025 # 10000) * (11025 # 10000) * ((max_x - min_x) * (max_y - min_y)).
Proof.
  intros Hbounds Hx Hy. unfold CurveNumbers.study_area, CurveNumbers.buffered_extent.
  rewrite Hbounds.
  destruct (buffered_axis min_x max_x Hx) as [Hx1 Hx2].
  destruct (buffered_axis min_y max_y Hy) as [Hy1 Hy2].
  rewrite Hx2, Hy2, Hx1, Hy1.
  split; [ring |]. split; [ring |]. split; [ring |]. split; [ring |].
  split; [repeat split; lra |].
  rewrite (Qabs_pos (max_x + _ - _)) by lra.
  rewrite (Qabs_pos (max_y + _ - _)) by lra.
  ring.
Qed.

Lemma buffer_is_wider_on_the_far_side_witness :
  let '(buffered_min_x, buffered_max_x, buffered_min_y, buffered_max_y) :=
    CurveNumbers.buffered_extent Examples.unit_aoi in
  buffered_min_x == -97 - (5 # 100) * (-96 - -97) ∧
  buffered_max_x == -96 + (525 # 10000) * (-96 - -97) ∧
  buffered_min_y == 31 - (5 # 100) * (32 - 31) ∧
  buffered_max_y == 32 + (525 # 10000) * (32 - 31) ∧
  (buffered_min_x <= -97 ∧ -96 <= buffered_max_x ∧
   buffered_min_y <= 31 ∧ 32 <= buffered_max_y) ∧
  CurveNumbers.study_area (CurveNumbers.buffered_extent Examples.unit_aoi)
  == (11025 # 10000) * (11025 # 10000) * ((-96 - -97) * (32 - 31)).
Proof.
  apply (buffer_is_wider_on_the_far_side Examples.unit_aoi (-97) 31 (-96) 32);
    [reflexivity | intros H; discriminate H | intros H; discriminate H].
Defined.

Section DropDuplicates.
Context {G : Type} `{EqDecision G}.

Lemma elem_of_drop_duplicates_from (seen rows : gdf G) (r : feature G) :
  r ∈ CurveNumbers.drop_duplicates_from seen rows ↔ r ∈ rows ∧ r ∉ seen.
Proof.
  revert seen. induction rows as [|x rows IH]; intros seen; simpl.
  - split; [intros Hin; by apply elem_of_nil in Hin | intros [Hin _]; by apply elem_of_nil in Hin].
  - destruct (decide (x ∈ seen)) as [Hseen | Hnew].
    + rewrite IH, elem_of_cons. split; [intros [? ?]; auto |].
      intros [[-> | ?] ?]; [done | auto].
    + rewrite !elem_of_cons, IH, not_elem_of_cons. split.
      * intros [-> | [? [? ?]]]; auto.
      * intros [[-> | ?] ?]; [by left |].
        destruct (decide (r = x)) as [-> | ?]; [by left | right; auto].
Qed.

Lemma NoDup_drop_duplicates_from (seen rows : gdf G) :
  NoDup (CurveNumbers.drop_duplicates_from seen rows).
Proof.
  revert seen. induction rows as [|x rows IH]; intros seen; simpl; [constructor |].
  destruct (decide (x ∈ seen)); [apply IH |].
  apply NoDup_cons. split; [| apply IH].
  rewrite elem_of_drop_duplicates_from, not_elem_of_cons. intros [_ [? _]]. done.
Qed.

Lemma sublist_drop_duplicates_from (seen rows : gdf G) :
  CurveNumbers.drop_duplicates_from seen rows `sublist_of` rows.
Proof.
  revert seen. induction rows as [|x rows IH]; intros seen; simpl; [done |].
  destruct (decide (x ∈ seen)).
  - apply sublist_cons. apply IH.
  - apply sublist_skip. apply IH.
Qed.

Lemma drop_duplicates_from_NoDup (seen rows : gdf G) :
  NoDup rows → (∀ r, r ∈ rows → r ∉ seen) →
  CurveNumbers.drop_duplicates_from seen rows = rows.
Proof.
  revert seen. induction rows as [|x rows IH]; intros seen Hdup Hseen; simpl; [done |].
  apply NoDup_cons in Hdup as [Hx Hdup].
  rewrite decide_False by (apply Hseen; by left). f_equal.
  apply IH; [done |]. intros r Hr. apply not_elem_of_cons. split.
  - intros ->. done.
  - apply Hseen. by right.
Qed.

(** X10. [drop_duplicates] keeps every distinct row once and loses none: its
    result has no two equal rows, has the same members as its argument, keeps
    them in the order of the argument, and is the argument itself when that
    has no duplicates. *)
Theorem drop_duplicates_keeps_each_row_once (rows : gdf G) :
  NoDup (CurveNumbers.drop_duplicates rows) ∧
  (∀ r, r ∈ CurveNumbers.drop_duplicates rows ↔ r ∈ rows) ∧
  CurveNumbers.drop_duplicates rows `sublist_of` rows ∧
  (NoDup rows → CurveNumbers.drop_duplicates rows = rows).
Proof.
  unfold CurveNumbers.drop_duplicates.
  split; [apply NoDup_drop_duplicates_from |].
  split; [| split; [apply sublist_drop_duplicates_from |]].
  - intros r. rewrite elem_of_drop_duplicates_from. split; [by intros [? _] |].
    intros Hr. split; [done | apply not_elem_of_nil].
  - intros Hdup. apply drop_duplicates_from_NoDup; [done |].
    intros r _. apply not_elem_of_nil.
Qed.
End DropDuplicates.

(** ** The rows of [hydrogroup_data] *)

Lemma no_group_no_row_witness :
  filter (λ r : string * string * Q, r.1.2 = "462"%string)
         (CurveNumbers.hydrogroup_data MoreExamples.table_with_unclassified_key)
  = [].
Proof.
  apply (no_group_no_row MoreExamples.table_with_unclassified_key "462").
  intros r Hr Hk. unfold MoreExamples.table_with_unclassified_key in Hr.
  repeat (apply elem_of_cons in Hr as [-> | Hr]; [done || discriminate Hk |]).
  by apply elem_of_nil in Hr.
Defined.

Lemma hydrogroup_mukeys (df : list CurveNumbers.component) (mukeys : list string)
    (rows : list (string * string * Q)) :
  Forall2 (first_maximal_group df) mukeys rows →
  map (λ r : string * string * Q, r.1.2) rows = mukeys.
Proof.
  induction 1 as [|k row mukeys rows Hrow _ IH]; [done |].
  cbn [map]. by rewrite IH, (first_maximal_group_mukey _ _ _ Hrow).
Qed.

(** X11. [hydrogroup_data] lists the map-unit keys in ascending string
    order, each once, and they are exactly the keys that have a component row
    with a hydrologic group; so ["1234"] comes before ["462"]. *)
Theorem hydrogroup_rows_are_sorted_by_mukey (df : list CurveNumbers.component) :
  let mukeys :=
    map (λ r : string * string * Q, r.1.2) (CurveNumbers.hydrogroup_data df) in
  StronglySorted String.le mukeys ∧ NoDup mukeys ∧
  ∀ k, k ∈ mukeys ↔
       ∃ r, r ∈ df ∧ CurveNumbers.c_mukey r = k ∧ is_Some (CurveNumbers.c_hydgrp r).
Proof.
  intros mukeys.
  assert (Hmukeys : mukeys
                    = CurveNumbers.sorted_unique String.le
                        (map (λ r : string * string * Q, r.1.2)
                           (CurveNumbers.grouped_data df))).
  { unfold mukeys, CurveNumbers.hydrogroup_data. cbv zeta.
    apply (hydrogroup_mukeys df). apply hydrogroup_rows.
    intros k Hk. by apply elem_of_mukeys. }
  rewrite Hmukeys.
  split; [apply (StronglySorted_sorted_unique String.le) |].
  split; [apply (NoDup_sorted_unique String.le) |].
  intros k. rewrite elem_of_mukeys. split.
  - intros [h Hh]. apply elem_of_sorted_keys in Hh as (r & Hr & Hg & Hk).
    exists r. split; [done |]. split; [done |]. rewrite Hg. by eexists.
  - intros (r & Hr & Hk & [h Hh]). exists h. apply elem_of_sorted_keys.
    exists r. done.
Qed.

Example hydrogroup_rows_of_unclassified_table :
  map (λ r : string * string * Q, r.1.2)
      (CurveNumbers.hydrogroup_data MoreExamples.table_with_unclassified_key)
  = ["1234"; "657964"]%string.
Proof. vm_compute. reflexivity. Qed.

(** ** The lookup dictionary and the remap *)

Lemma to_dict_snoc (rows : list (Z * string * Q)) (r : Z * string * Q) :
  ManningsN.to_dict (rows ++ [r]) = <[r.1.1 := r.2]> (ManningsN.to_dict rows).
Proof. unfold ManningsN.to_dict. by rewrite fold_left_app. Qed.

(** X12. The dictionary built from the lookup table holds, for a code, the
    roughness of the last row with that code: a value is found exactly when
    the table splits into rows before, a row with this code and value, and
    rows after it that do not mention the code. *)
Theorem lookup_uses_the_last_row_of_a_code (rows : list (Z * string * Q))
    (code : Z) (v : Q) :
  ManningsN.to_dict rows !! code = Some v
  ↔ ∃ before name after,
      rows = before ++ (code, name, v) :: after ∧
      code ∉ map (λ r : Z * string * Q, r.1.1) after.
Proof.
  induction rows as [|[[k name] x] rows IH] using rev_ind.
  - split; [done |]. intros (before & name & after & Heq & _).
    by destruct before.
  - rewrite to_dict_snoc. cbn [fst snd].
    destruct (decide (k = code)) as [-> | Hne].
    + rewrite lookup_insert_eq. split.
      * intros [= ->]. exists rows, name, []. split; [done | apply not_elem_of_nil].
      * intros (before & name' & after & Heq & Hafter).
        destruct after as [|r after _] using rev_ind.
        -- apply app_inj_tail in Heq as [_ [= _ ->]]. done.
        -- rewrite app_comm_cons, (assoc_L (++)) in Heq.
           apply app_inj_tail in Heq as [_ <-].
           exfalso. apply Hafter. rewrite map_app. apply elem_of_app. right. by left.
    + rewrite lookup_insert_ne by done. rewrite IH. split.
      * intros (before & name' & after & -> & Hafter).
        exists before, name', (after ++ [(k, name, x)]).
        split; [by rewrite <- (assoc_L (++)) |].
        rewrite map_app, elem_of_app. intros [? | Hk]; [done |].
        apply list_elem_of_singleton in Hk. simpl in Hk. congruence.
      * intros (before & name' & after & Heq & Hafter).
        destruct after as [|r after _] using rev_ind.
        -- apply app_inj_tail in Heq as [_ [= ? _ _]]. congruence.
        -- rewrite app_comm_cons, (assoc_L (++)) in Heq.
           apply app_inj_tail in Heq as [-> <-].
           exists before, name', after. split; [done |].
           intros Hin. apply Hafter. rewrite map_app. apply elem_of_app. by left.
Qed.

(** X13. Running [convert_to_mannings] a second time on the same raster and
    table changes nothing: when a run succeeds and its output path is neither
    the input raster nor the lookup file, the same call in the resulting world
    succeeds and leaves that world as it is. *)
Theorem convert_to_mannings_is_idempotent {G} (image_path out_img_mannings : string)
    (nlcd_classifications_path : option string) (w w1 : world G) :
  ManningsN.convert_to_mannings image_path out_img_mannings
    nlcd_classifications_path w = (Ok tt, w1) →
  out_img_mannings ≠ image_path →
  nlcd_classifications_path ≠ Some out_img_mannings →
  ManningsN.convert_to_mannings image_path out_img_mannings
    nlcd_classifications_path w1 = (Ok tt, w1).
Proof.
  intros Hrun Himg Hcsv. revert Hrun.
  unfold ManningsN.convert_to_mannings, ManningsN.open_csv. unfold_world.
  destruct nlcd_classifications_path as [path|].
  - assert (Hpath : out_img_mannings ≠ path) by congruence.
    destruct (files w !! path) as [[| | |t]|] eqn:Htable; try discriminate.
    destruct (files w !! image_path) as [[|cells| |]|] eqn:Hcells; try discriminate.
    destruct (ManningsN.column t "mannings_n") eqn:Hm; [| discriminate].
    destruct (ManningsN.column t "value") eqn:Hv; [| discriminate].
    intros [= <-]. cbn [files requests].
    rewrite lookup_insert_ne, Htable by done. cbn beta iota. cbn [files requests].
    rewrite lookup_insert_ne, Hcells by done.
    rewrite Hm, Hv. cbn [files requests]. by rewrite insert_insert_eq.
  - destruct (files w !! image_path) as [[|cells| |]|] eqn:Hcells; try discriminate.
    destruct mock_columns_present as [-> ->].
    intros [= <-]. cbn [files requests].
    rewrite lookup_insert_ne, Hcells by done.
    cbn [files requests]. by rewrite insert_insert_eq.
Qed.

Lemma convert_to_mannings_is_idempotent_witness :
  ManningsN.convert_to_mannings "out/nlcd_0.tif" "out/mannings_n_0.tif" None
    (ManningsN.convert_to_mannings "out/nlcd_0.tif" "out/mannings_n_0.tif" None
       Examples.one_tile_world).2
  = (Ok tt,
     (ManningsN.convert_to_mannings "out/nlcd_0.tif" "out/mannings_n_0.tif" None
        Examples.one_tile_world).2).
Proof.
  apply (convert_to_mannings_is_idempotent "out/nlcd_0.tif" "out/mannings_n_0.tif"
           None Examples.one_tile_world).
  - reflexivity.
  - intros H. discriminate H.
  - intros H. discriminate H.
Defined.

(** ** Validation failures of the lookup file *)

(** X14. Whenever [check_fields_in_csv] raises, [get_nlcd_and_convert] raises
    the same exception in the world it started from, before any request or
    file write. The exception is [FileNotFoundError] for a missing file,
    [TypeError] for a file without a header line, and [ValueError] for a header
    that lacks a required field. *)
Theorem validation_failure_stops_the_raster_pipeline {G}
    (wcs : url -> nat -> option (raster Z))
    (mask_codes : aoi -> raster Z -> result (raster Z))
    (mask_rough : aoi -> raster (option Q) -> result (raster (option Q)))
    (warp_codes : list (raster Z) -> option (raster Z))
    (warp_rough : list (raster (option Q)) -> option (raster (option Q)))
    (a : aoi) (output_directory path : string) (e : exn) (w w' : world G) :
  ManningsN.check_fields_in_csv path w = (Raise e, w') →
  w' = w ∧
  ManningsN.get_nlcd_and_convert wcs mask_codes mask_rough warp_codes warp_rough
    a output_directory (Some path) w
  = (Raise e, w) ∧
  match files w !! path with
  | None => e = FileNotFoundError path
  | Some (Table t) =>
      match fieldnames t with
      | None => e = TypeError
      | Some names =>
          ∃ msg, e = ValueError msg ∧ ¬ ManningsN.required_fields ⊆ names
      end
  | Some _ => True
  end.
Proof.
  intros Hcheck.
  assert (Hsame : w' = w ∧
    match files w !! path with
    | None => e = FileNotFoundError path
    | Some (Table t) =>
        match fieldnames t with
        | None => e = TypeError
        | Some names =>
            ∃ msg, e = ValueError msg ∧ ¬ ManningsN.required_fields ⊆ names
        end
    | Some _ => True
    end).
  { revert Hcheck. unfold ManningsN.check_fields_in_csv, ManningsN.open_csv.
    unfold_world.
    destruct (files w !! path) as [[| | |t]|]; try (intros [= <- <-]; done).
    destruct (fieldnames t) as [names|]; [| intros [= <- <-]; done].
    destruct (ManningsN.check_fields ManningsN.required_fields names) eqn:Hfields;
      [discriminate |].
    intros [= <- <-]. split; [done |].
    destruct (decide (ManningsN.required_fields ⊆ names)) as [Hsub | Hsub].
    - rewrite (check_fields_ok _ _ Hsub) in Hfields. discriminate Hfields.
    - revert Hfields. unfold ManningsN.required_fields, ManningsN.check_fields.
      repeat case_decide; intros [= <-]; eauto. }
  destruct Hsame as [-> Hkind]. split; [done |]. split; [| done].
  unfold ManningsN.get_nlcd_and_convert. unfold bind at 1. by rewrite Hcheck.
Qed.

Lemma validation_failure_stops_the_raster_pipeline_witness :
  Examples.empty_world = Examples.empty_world ∧
  ManningsN.get_nlcd_and_convert Examples.wcs_up Examples.mask_id Examples.mask_id
    Examples.warp_first Examples.warp_first Examples.unit_aoi "out"
    (Some "lookup.csv"%string) Examples.empty_world
  = (Raise (FileNotFoundError "lookup.csv"), Examples.empty_world) ∧
  match files Examples.empty_world !! "lookup.csv"%string with
  | None => FileNotFoundError "lookup.csv" = FileNotFoundError "lookup.csv"
  | Some (Table t) =>
      match fieldnames t with
      | None => FileNotFoundError "lookup.csv" = TypeError
      | Some names =>
          ∃ msg, FileNotFoundError "lookup.csv" = ValueError msg ∧
                 ¬ ManningsN.required_fields ⊆ names
      end
  | Some _ => True
  end.
Proof.
  apply (validation_failure_stops_the_raster_pipeline Examples.wcs_up Examples.mask_id
           Examples.mask_id Examples.warp_first Examples.warp_first Examples.unit_aoi
           "out" "lookup.csv" (FileNotFoundError "lookup.csv") Examples.empty_world
           Examples.empty_world).
  reflexivity.
Defined.

(** ** The small-area branch of the raster pipeline *)

Lemma nlcd_clip_is_not_mannings_n_clip (d : string) : mannings_n_clip d ≠ nlcd_clip d.
Proof. intros H. apply path_join_inj in H. discriminate H. Qed.

(** The three steps after the download, on a directory that holds a land-cover
    raster at [nlcd_clip]. *)
Lemma small_area_after_download {G}
    (mask_codes : aoi -> raster Z -> result (raster Z))
    (mask_rough : aoi -> raster (option Q) -> result (raster (option Q)))
    (a : aoi) (d : string) (w : world G) (r c : raster Z) (m : raster (option Q)) :
  files w !! nlcd_clip d = Some (LandCover r) →
  mask_codes a r = Ok c →
  mask_rough a (default_remap r) = Ok m →
  (run! ManningsN.convert_to_mannings (nlcd_clip d) (mannings_n_clip d) None in
   run! ManningsN.clip_image mask_codes mask_rough (nlcd_clip d) (nlcd_clip d) a in
   ManningsN.clip_image mask_codes mask_rough (mannings_n_clip d) (mannings_n_clip d) a) w
  = (Ok tt,
     {| requests := requests w;
        files := <[mannings_n_clip d := Roughness m]>
                   (<[nlcd_clip d := LandCover c]>
                      (<[mannings_n_clip d := Roughness (default_remap r)]> (files w))) |}).
Proof.
  intros Hfile Hcodes Hrough.
  pose proof (nlcd_clip_is_not_mannings_n_clip d) as Hne.
  unfold ManningsN.convert_to_mannings, ManningsN.clip_image. unfold_world.
  rewrite Hfile. destruct mock_columns_present as [-> ->]. cbn beta iota.
  cbn [files requests].
  rewrite lookup_insert_ne, Hfile by done. cbn beta iota.
  rewrite Hcodes. cbn beta iota. cbn [files requests].
  rewrite lookup_insert_ne, lookup_insert_eq by done. cbn beta iota.
  fold (default_remap r). by rewrite Hrough.
Qed.

(** X15. When the one request of the small-area branch is answered and both
    masks succeed, the run leaves the clipped land cover at [nlcd_clip.tif] and
    at [mannings_n_clip.tif] the clip of the remapped unclipped raster: the
    roughness values are looked up before the raster is clipped. Every other
    file is left as it was. *)
Theorem small_area_remaps_before_clipping {G}
    (wcs : url -> nat -> option (raster Z))
    (mask_codes : aoi -> raster Z -> result (raster Z))
    (mask_rough : aoi -> raster (option Q) -> result (raster (option Q)))
    (warp_codes : list (raster Z) -> option (raster Z))
    (warp_rough : list (raster (option Q)) -> option (raster (option Q)))
    (a : aoi) (d : string) (w : world G) (r c : raster Z) (m : raster (option Q)) :
  Qle_bool (ManningsN.area_4326 a) 9 = true →
  wcs (ManningsN.get_url (ManningsN.ext_albers a))
      (reads_of (ManningsN.get_url (ManningsN.ext_albers a)) w) = Some r →
  mask_codes a r = Ok c →
  mask_rough a (default_remap r) = Ok m →
  ∃ w',
    ManningsN.get_nlcd_and_convert wcs mask_codes mask_rough warp_codes warp_rough
      a d None w = (Ok tt, w') ∧
    requests w' = requests w ++ [ManningsN.get_url (ManningsN.ext_albers a)] ∧
    files w' !! nlcd_clip d = Some (LandCover c) ∧
    files w' !! mannings_n_clip d = Some (Roughness m) ∧
    ∀ path, path ≠ nlcd_clip d → path ≠ mannings_n_clip d →
            files w' !! path = files w !! path.
Proof.
  intros Harea Hserved Hcodes Hrough.
  pose proof (nlcd_clip_is_not_mannings_n_clip d) as Hne.
  set (u := ManningsN.get_url (ManningsN.ext_albers a)) in *.
  set (w1 := {| requests := requests w ++ [u];
                files := <[nlcd_clip d := LandCover r]> (files w) |}).
  assert (Hget : ManningsN.get_img wcs u (nlcd_clip d) w = (Ok ManningsN.success, w1)).
  { unfold ManningsN.get_img. unfold_world. fold (reads_of u w). by rewrite Hserved. }
  assert (Hfile : files w1 !! nlcd_clip d = Some (LandCover r)).
  { apply lookup_insert_eq. }
  pose proof (small_area_after_download mask_codes mask_rough a d w1 r c m
                Hfile Hcodes Hrough) as Hrest.
  eexists. split.
  { unfold ManningsN.get_nlcd_and_convert. unfold bind at 1, ret at 1.
    rewrite Harea. fold u. fold (nlcd_clip d). fold (mannings_n_clip d).
    unfold bind at 1. rewrite Hget. exact Hrest. }
  subst w1. cbn [requests files]. split; [done |]. split.
  { by rewrite lookup_insert_ne, lookup_insert_eq. }
  split; [apply lookup_insert_eq |].
  intros path Hp1 Hp2. by rewrite !lookup_insert_ne.
Qed.

Lemma small_area_remaps_before_clipping_witness :
  ∃ w',
    ManningsN.get_nlcd_and_convert Examples.wcs_up Examples.mask_id Examples.mask_id
      Examples.warp_first Examples.warp_first Examples.unit_aoi "out" None
      Examples.empty_world = (Ok tt, w') ∧
    requests w'
    = requests Examples.empty_world
      ++ [ManningsN.get_url (ManningsN.ext_albers Examples.unit_aoi)] ∧
    files w' !! nlcd_clip "out" = Some (LandCover [[11%Z; 13%Z]; [95%Z; 0%Z]]) ∧
    files w' !! mannings_n_clip "out"
    = Some (Roughness (default_remap [[11%Z; 13%Z]; [95%Z; 0%Z]])) ∧
    ∀ path, path ≠ nlcd_clip "out" → path ≠ mannings_n_clip "out" →
            files w' !! path = files Examples.empty_world !! path.
Proof.
  apply (small_area_remaps_before_clipping Examples.wcs_up Examples.mask_id
           Examples.mask_id Examples.warp_first Examples.warp_first Examples.unit_aoi
           "out" Examples.empty_world [[11%Z; 13%Z]; [95%Z; 0%Z]]
           [[11%Z; 13%Z]; [95%Z; 0%Z]]
           (default_remap [[11%Z; 13%Z]; [95%Z; 0%Z]]));
    reflexivity.
Defined.

(** X16. In the small-area branch a request that is not answered is not sent
    again: with no file at [nlcd_clip.tif] the run ends in the
    [RasterioIOError] of [convert_to_mannings], after one request and without
    writing a file. *)
Theorem small_area_download_is_not_retried {G}
    (wcs : url -> nat -> option (raster Z))
    (mask_codes : aoi -> raster Z -> result (raster Z))
    (mask_rough : aoi -> raster (option Q) -> result (raster (option Q)))
    (warp_codes : list (raster Z) -> option (raster Z))
    (warp_rough : list (raster (option Q)) -> option (raster (option Q)))
    (a : aoi) (d : string) (w : world G) :
  Qle_bool (ManningsN.area_4326 a) 9 = true →
  wcs (ManningsN.get_url (ManningsN.ext_albers a))
      (reads_of (ManningsN.get_url (ManningsN.ext_albers a)) w) = None →
  files w !! nlcd_clip d = None →
  ManningsN.get_nlcd_and_convert wcs mask_codes mask_rough warp_codes warp_rough
    a d None w
  = (Raise (RasterioIOError (nlcd_clip d)),
     logged (ManningsN.get_url (ManningsN.ext_albers a)) w).
Proof.
  intros Harea Hdown Hfile.
  set (u := ManningsN.get_url (ManningsN.ext_albers a)) in *.
  assert (Hget : ManningsN.get_img wcs u (nlcd_clip d) w
                 = (Ok ManningsN.fail, logged u w)).
  { unfold ManningsN.get_img. unfold_world. fold (reads_of u w). by rewrite Hdown. }
  unfold ManningsN.get_nlcd_and_convert. unfold bind at 1, ret at 1.
  rewrite Harea. fold u. fold (nlcd_clip d). fold (mannings_n_clip d).
  unfold bind at 1. rewrite Hget.
  unfold bind at 1. unfold ManningsN.convert_to_mannings. unfold_world.
  cbn [files logged]. by rewrite Hfile.
Qed.

Lemma small_area_download_is_not_retried_witness :
  ManningsN.get_nlcd_and_convert MoreExamples.wcs_down Examples.mask_id Examples.mask_id
    Examples.warp_first Examples.warp_first Examples.unit_aoi "out" None
    Examples.empty_world
  = (Raise (RasterioIOError (nlcd_clip "out")),
     logged (ManningsN.get_url (ManningsN.ext_albers Examples.unit_aoi))
       Examples.empty_world).
Proof.
  apply (small_area_download_is_not_retried MoreExamples.wcs_down Examples.mask_id
           Examples.mask_id Examples.warp_first Examples.warp_first Examples.unit_aoi
           "out" Examples.empty_world).
  - reflexivity.
  - reflexivity.
  - reflexivity.
Defined.

(** X17. When the request of the small-area branch is not answered but the
    output directory holds a land-cover raster at [nlcd_clip.tif] from an
    earlier run, the run succeeds: both outputs are computed from the old
    raster and nothing reports the failed download. *)
Theorem small_area_reuses_a_stale_download {G}
    (wcs : url -> nat -> option (raster Z))
    (mask_codes : aoi -> raster Z -> result (raster Z))
    (mask_rough : aoi -> raster (option Q) -> result (raster (option Q)))
    (warp_codes : list (raster Z) -> option (raster Z))
    (warp_rough : list (raster (option Q)) -> option (raster (option Q)))
    (a : aoi) (d : string) (w : world G) (old c : raster Z) (m : raster (option Q)) :
  Qle_bool (ManningsN.area_4326 a) 9 = true →
  wcs (ManningsN.get_url (ManningsN.ext_albers a))
      (reads_of (ManningsN.get_url (ManningsN.ext_albers a)) w) = None →
  files w !! nlcd_clip d = Some (LandCover old) →
  mask_codes a old = Ok c →
  mask_rough a (default_remap old) = Ok m →
  ∃ w',
    ManningsN.get_nlcd_and_convert wcs mask_codes mask_rough warp_codes warp_rough
      a d None w = (Ok tt, w') ∧
    files w' !! nlcd_clip d = Some (LandCover c) ∧
    files w' !! mannings_n_clip d = Some (Roughness m).
Proof.
  intros Harea Hdown Hfile Hcodes Hrough.
  pose proof (nlcd_clip_is_not_mannings_n_clip d) as Hne.
  set (u := ManningsN.get_url (ManningsN.ext_albers a)) in *.
  assert (Hget : ManningsN.get_img wcs u (nlcd_clip d) w
                 = (Ok ManningsN.fail, logged u w)).
  { unfold ManningsN.get_img. unfold_world. fold (reads_of u w). by rewrite Hdown. }
  pose proof (small_area_after_download mask_codes mask_rough a d (logged u w) old c m
                Hfile Hcodes Hrough) as Hrest.
  eexists. split.
  { unfold ManningsN.get_nlcd_and_convert. unfold bind at 1, ret at 1.
    rewrite Harea. fold u. fold (nlcd_clip d). fold (mannings_n_clip d).
    unfold bind at 1. rewrite Hget. exact Hrest. }
  cbn [requests files]. split.
  - by rewrite lookup_insert_ne, lookup_insert_eq.
  - apply lookup_insert_eq.
Qed.

Lemma small_area_reuses_a_stale_download_witness :
  ∃ w',
    ManningsN.get_nlcd_and_convert MoreExamples.wcs_down Examples.mask_id
      Examples.mask_id Examples.warp_first Examples.warp_first Examples.unit_aoi
      "out" None MoreExamples.stale_world = (Ok tt, w') ∧
    files w' !! nlcd_clip "out" = Some (LandCover [[21%Z; 22%Z]]) ∧
    files w' !! mannings_n_clip "out"
    = Some (Roughness (default_remap [[21%Z; 22%Z]])).
Proof.
  apply (small_area_reuses_a_stale_download MoreExamples.wcs_down Examples.mask_id
           Examples.mask_id Examples.warp_first Examples.warp_first Examples.unit_aoi
           "out" MoreExamples.stale_world [[21%Z; 22%Z]] [[21%Z; 22%Z]]
           (default_remap [[21%Z; 22%Z]]));
    reflexivity.
Defined.

Lemma raster_pipeline_fetches_a_small_area_whole_witness :
  requests (ManningsN.get_nlcd_and_convert Examples.wcs_up Examples.mask_id
              Examples.mask_id Examples.warp_first Examples.warp_first
              Examples.unit_aoi "out" None Examples.empty_world).2
  = requests Examples.empty_world
    ++ [ManningsN.get_url (ManningsN.ext_albers Examples.unit_aoi)].
Proof.
  apply (raster_pipeline_fetches_a_small_area_whole Examples.wcs_up Examples.mask_id
           Examples.mask_id Examples.warp_first Examples.warp_first Examples.unit_aoi
           "out" Examples.empty_world).
  reflexivity.
Defined.

(** ** The tiled branch of the raster pipeline when every tile is served *)

Lemma pretty_N_go_head (x : N) (s : string) :
  pretty_N_go x s = s ∨ ∃ c t, pretty_N_go x s = String c t ∧ c ≠ "c"%char.
Proof.
  revert s. induction (N.lt_wf_0 x) as [x _ IH]; intros s.
  assert (x = 0 ∨ 0 < x)%N as [-> | Hpos] by lia.
  - left. apply pretty_N_go_0.
  - rewrite pretty_N_go_step by done. right.
    destruct (IH (x `div` 10)%N) with (s := String (pretty_N_char (x `mod` 10)) s)
      as [-> | Hhead].
    + apply N.div_lt; lia.
    + eexists _, _. split; [done |]. unfold pretty_N_char. by repeat case_match.
    + exact Hhead.
Qed.

Lemma pretty_nat_not_clip (i : nat) : pretty i ≠ "clip"%string.
Proof.
  unfold pretty, pretty_nat, pretty, pretty_N. case_decide; [done |].
  destruct (pretty_N_go_head (N.of_nat i) "") as [-> | (c & t & -> & Hc)]; [done |].
  intros [= -> _]. done.
Qed.

Lemma clip_is_not_a_tile (d : string) :
  not_a_tile d (nlcd_clip d) ∧ not_a_tile d (mannings_n_clip d).
Proof.
  split; intros i; split; intros Heq; apply path_join_inj in Heq.
  - change ("nlcd_" ++ "clip" ++ ".tif" = "nlcd_" ++ pretty i ++ ".tif")%string in Heq.
    apply (inj (String.app "nlcd_")) in Heq. apply string_app_inj_r in Heq.
    by apply (pretty_nat_not_clip i).
  - change (String "n" "lcd_clip.tif" = String "m" ("annings_n_" ++ pretty i ++ ".tif"))
      in Heq.
    discriminate Heq.
  - change (String "m" "annings_n_clip.tif" = String "n" ("lcd_" ++ pretty i ++ ".tif"))
      in Heq.
    discriminate Heq.
  - change ("mannings_n_" ++ "clip" ++ ".tif" = "mannings_n_" ++ pretty i ++ ".tif")%string
      in Heq.
    apply (inj (String.app "mannings_n_")) in Heq. apply string_app_inj_r in Heq.
    by apply (pretty_nat_not_clip i).
Qed.

Lemma mannings_tile_inj d i j : mannings_tile d i = mannings_tile d j → i = j.
Proof.
  unfold mannings_tile. intros Heq. apply path_join_inj in Heq.
  apply (inj (String.app "mannings_n_")) in Heq.
  apply string_app_inj_r in Heq. by apply (inj pretty) in Heq.
Qed.

Section Tiles.
Context {G : Type}.
Implicit Types (fs : gmap string (file G)) (rs : list (raster Z)).

Lemma with_tiles_other d start rs fs path :
  not_a_tile d path → with_tiles d start rs fs !! path = fs !! path.
Proof.
  intros Hpath. revert start fs.
  induction rs as [|r rs IH]; intros start fs; [done |].
  cbn [with_tiles]. rewrite IH.
  destruct (Hpath start) as [Hn Hm]. by rewrite !lookup_insert_ne.
Qed.

Lemma with_tiles_earlier d rs : ∀ start fs i,
  (i < start)%nat →
  with_tiles d start rs fs !! nlcd_tile d i = fs !! nlcd_tile d i ∧
  with_tiles d start rs fs !! mannings_tile d i = fs !! mannings_tile d i.
Proof.
  induction rs as [|r rs IH]; intros start fs i Hi; [done |].
  cbn [with_tiles].
  destruct (IH (S start)
              (<[mannings_tile d start := Roughness (default_remap r)]>
                 (<[nlcd_tile d start := LandCover r]> fs)) i) as [-> ->]; [lia |].
  assert (i ≠ start) as Hne by lia.
  assert (nlcd_tile d start ≠ nlcd_tile d i) by (by intros ?%nlcd_tile_inj).
  assert (mannings_tile d start ≠ mannings_tile d i) by (by intros ?%mannings_tile_inj).
  pose proof (mannings_tile_not_nlcd d start i).
  assert (nlcd_tile d start ≠ mannings_tile d i).
  { intros Heq. by apply (mannings_tile_not_nlcd d i start). }
  by rewrite !lookup_insert_ne.
Qed.

Lemma with_tiles_lookup d rs : ∀ start fs k r,
  rs !! k = Some r →
  with_tiles d start rs fs !! nlcd_tile d (start + k) = Some (LandCover r) ∧
  with_tiles d start rs fs !! mannings_tile d (start + k)
  = Some (Roughness (default_remap r)).
Proof.
  induction rs as [|r0 rs IH]; intros start fs k r Hk; [done |].
  cbn [with_tiles]. destruct k as [|k].
  - injection Hk as ->. rewrite Nat.add_0_r.
    destruct (with_tiles_earlier d rs (S start)
                (<[mannings_tile d start := Roughness (default_remap r)]>
                   (<[nlcd_tile d start := LandCover r]> fs)) start) as [-> ->]; [lia |].
    pose proof (mannings_tile_not_nlcd d start start).
    by rewrite lookup_insert_ne, !lookup_insert_eq.
  - replace (start + S k)%nat with (S start + k)%nat by lia. by apply IH.
Qed.

Lemma without_other paths : ∀ fs path,
  path ∉ paths → without paths fs !! path = fs !! path.
Proof.
  induction paths as [|p paths IH]; intros fs path Hpath; [done |].
  cbn [without]. apply not_elem_of_cons in Hpath as [Hne Hpath].
  rewrite IH by done. by rewrite lookup_delete_ne.
Qed.

Lemma without_removed paths : ∀ fs path,
  path ∈ paths → without paths fs !! path = None.
Proof.
  induction paths as [|p paths IH]; intros fs path Hpath; [by apply elem_of_nil in Hpath |].
  cbn [without]. destruct (decide (path ∈ paths)) as [Hin | Hout]; [by apply IH |].
  apply elem_of_cons in Hpath as [-> | Hin]; [| done].
  rewrite without_other by done. apply lookup_delete_eq.
Qed.

Lemma mapM_read_path (paths : list string) (w : world G) :
  mapM read_path paths w = (Ok (map (λ p, files w !! p) paths), w).
Proof.
  induction paths as [|p paths IH]; [done |].
  cbn [mapM map]. unfold bind at 1. unfold read_path at 1.
  unfold bind at 1. rewrite IH. reflexivity.
Qed.

(** Removing files that are all there, none of them twice. *)
Lemma remove_tiles (paths : list string) : ∀ w : world G,
  NoDup paths →
  (∀ p, p ∈ paths → is_Some (files w !! p)) →
  foldM (λ _ tile, remove_path tile) tt paths w
  = (Ok tt, {| requests := requests w; files := without paths (files w) |}).
Proof.
  induction paths as [|p paths IH]; intros w Hdup Hthere.
  - by destruct w.
  - cbn [foldM without]. unfold bind at 1. unfold remove_path at 1.
    destruct (Hthere p) as [f Hf]; [by left |]. rewrite Hf.
    apply NoDup_cons in Hdup as [Hp Hdup].
    rewrite IH; [done | done |].
    intros q Hq. cbn [files]. rewrite lookup_delete_ne; [apply Hthere; by right |].
    by intros ->.
Qed.

Lemma land_covers_of fs (paths : list string) rs :
  Forall2 (λ p r, fs !! p = Some (LandCover r)) paths rs →
  ManningsN.land_covers (map (λ p, fs !! p) paths) = Some rs.
Proof.
  induction 1 as [|p r paths rs Hp _ IH]; [done |].
  cbn [map ManningsN.land_covers]. by rewrite Hp, IH.
Qed.

Lemma roughnesses_of fs (paths : list string) (ms : list (raster (option Q))) :
  Forall2 (λ p m, fs !! p = Some (Roughness m)) paths ms →
  ManningsN.roughnesses (map (λ p, fs !! p) paths) = Some ms ∧
  (paths ≠ [] → ManningsN.land_covers (map (λ p, fs !! p) paths) = None).
Proof.
  induction 1 as [|p m paths ms Hp _ [IH _]]; [done |].
  cbn [map ManningsN.roughnesses ManningsN.land_covers]. by rewrite Hp, IH.
Qed.

Lemma tiles_present {A} (f : A → file G) fs (paths : list string) (xs : list A) :
  Forall2 (λ p x, fs !! p = Some (f x)) paths xs →
  ∀ p, p ∈ paths → is_Some (fs !! p).
Proof.
  induction 1 as [|p x paths xs Hp _ IH]; intros q Hq; [by apply elem_of_nil in Hq |].
  apply elem_of_cons in Hq as [-> | Hq]; [by eexists | by apply IH].
Qed.

Lemma tiles_agree {A} (f : A → file G) fs fs' (paths : list string) (xs : list A) :
  Forall2 (λ p x, fs !! p = Some (f x)) paths xs →
  (∀ p, p ∈ paths → fs' !! p = fs !! p) →
  Forall2 (λ p x, fs' !! p = Some (f x)) paths xs.
Proof.
  induction 1 as [|p x paths xs Hp _ IH]; intros Hagree; constructor.
  - rewrite Hagree; [done | by left].
  - apply IH. intros q Hq. apply Hagree. by right.
Qed.

Lemma NoDup_tiles d n : NoDup (nlcd_tiles d n) ∧ NoDup (mannings_tiles d n).
Proof.
  split; apply NoDup_fmap_2_strong; try apply NoDup_seq.
  - intros i j _ _. apply nlcd_tile_inj.
  - intros i j _ _. apply mannings_tile_inj.
Qed.

End Tiles.

Section EveryTileServed.
Context {G : Type}.
Variable wcs : url -> nat -> option (raster Z).
Variable mask_codes : aoi -> raster Z -> result (raster Z).
Variable mask_rough : aoi -> raster (option Q) -> result (raster (option Q)).
Variable warp_codes : list (raster Z) -> option (raster Z).
Variable warp_rough : list (raster (option Q)) -> option (raster (option Q)).

Lemma first_pass_served (d : string) (acc : ManningsN.tiles) (i : nat) (ext : extent)
    (r : raster Z) (w : world G) :
  (∀ n, wcs (ManningsN.get_url ext) n = Some r) →
  ManningsN.first_pass wcs d None acc (i, ext) w
  = (Ok {| ManningsN.failed_img := ManningsN.failed_img acc;
           ManningsN.tile_paths := ManningsN.tile_paths acc ++ [nlcd_tile d i];
           ManningsN.tile_paths_mannings :=
             ManningsN.tile_paths_mannings acc ++ [mannings_tile d i] |},
     {| requests := requests w ++ [ManningsN.get_url ext];
        files := <[mannings_tile d i := Roughness (default_remap r)]>
                   (<[nlcd_tile d i := LandCover r]> (files w)) |}).
Proof.
  intros Hserved.
  unfold ManningsN.first_pass, ManningsN.get_img, ManningsN.convert_to_mannings.
  unfold_world.
  fold (nlcd_tile d i). fold (mannings_tile d i).
  destruct mock_columns_present as [-> ->]. cbn beta iota.
  rewrite Hserved. cbn [files requests]. by rewrite lookup_insert_eq.
Qed.

Lemma first_loop_served (d : string) (tile_extents : list extent) (rs : list (raster Z)) :
  Forall2 (λ ext r, ∀ n, wcs (ManningsN.get_url ext) n = Some r) tile_extents rs →
  ∀ (start : nat) (acc : ManningsN.tiles) (w : world G),
    foldM (ManningsN.first_pass wcs d None) acc
          (zip (seq start (length tile_extents)) tile_extents) w
    = (Ok {| ManningsN.failed_img := ManningsN.failed_img acc;
             ManningsN.tile_paths :=
               ManningsN.tile_paths acc ++ map (nlcd_tile d) (seq start (length rs));
             ManningsN.tile_paths_mannings :=
               ManningsN.tile_paths_mannings acc
               ++ map (mannings_tile d) (seq start (length rs)) |},
       {| requests := requests w ++ map ManningsN.get_url tile_extents;
          files := with_tiles d start rs (files w) |}).
Proof.
  induction 1 as [|ext r tile_extents rs Hserved _ IH]; intros start acc w.
  - cbn. rewrite !app_nil_r. by destruct acc, w.
  - cbn [length seq zip zip_with foldM map with_tiles]. unfold bind at 1.
    rewrite (first_pass_served d acc start ext r w Hserved).
    rewrite IH. cbn [ManningsN.failed_img ManningsN.tile_paths
                       ManningsN.tile_paths_mannings requests files].
    by rewrite <- !app_assoc.
Qed.

Lemma tiles_there (d : string) (rs : list (raster Z)) (fs : gmap string (file G)) :
  Forall2 (λ p r, with_tiles d 0 rs fs !! p = Some (LandCover r))
          (nlcd_tiles d (length rs)) rs ∧
  Forall2 (λ p m, with_tiles d 0 rs fs !! p = Some (Roughness m))
          (mannings_tiles d (length rs)) (map default_remap rs).
Proof.
  unfold nlcd_tiles, mannings_tiles.
  split; apply Forall2_same_length_lookup_2.
  - by rewrite length_map, length_seq.
  - intros i p r Hp Hr. rewrite list_lookup_fmap in Hp.
    apply lookup_lt_Some in Hr as Hlt. rewrite lookup_seq_lt in Hp by done.
    injection Hp as <-. exact (proj1 (with_tiles_lookup d rs 0 fs i r Hr)).
  - by rewrite !length_map, length_seq.
  - intros i p m Hp Hm. rewrite list_lookup_fmap in Hp. rewrite lookup_map in Hm.
    destruct (rs !! i) as [r|] eqn:Hr; [| done]. injection Hm as <-.
    apply lookup_lt_Some in Hr as Hlt. rewrite lookup_seq_lt in Hp by done.
    injection Hp as <-. exact (proj2 (with_tiles_lookup d rs 0 fs i r Hr)).
Qed.

Lemma build_mosaic_of_codes (input_imgs : list string) (output_mosaic : string)
    (rs : list (raster Z)) (mosaic : raster Z) (w : world G) :
  Forall2 (λ p r, files w !! p = Some (LandCover r)) input_imgs rs →
  warp_codes rs = Some mosaic →
  ManningsN.build_mosaic warp_codes warp_rough input_imgs output_mosaic w
  = (Ok tt, {| requests := requests w;
               files := <[output_mosaic := LandCover mosaic]> (files w) |}).
Proof.
  intros Hfiles Hwarp. unfold ManningsN.build_mosaic. unfold bind at 1.
  rewrite mapM_read_path. rewrite (land_covers_of _ _ _ Hfiles). csimpl.
  by rewrite Hwarp.
Qed.

Lemma build_mosaic_of_roughness (input_imgs : list string) (output_mosaic : string)
    (ms : list (raster (option Q))) (mosaic : raster (option Q)) (w : world G) :
  Forall2 (λ p m, files w !! p = Some (Roughness m)) input_imgs ms →
  input_imgs ≠ [] →
  warp_rough ms = Some mosaic →
  ManningsN.build_mosaic warp_codes warp_rough input_imgs output_mosaic w
  = (Ok tt, {| requests := requests w;
               files := <[output_mosaic := Roughness mosaic]> (files w) |}).
Proof.
  intros Hfiles Hsome Hwarp. unfold ManningsN.build_mosaic. unfold bind at 1.
  rewrite mapM_read_path.
  destruct (roughnesses_of _ _ _ Hfiles) as [-> ->]; [| done]. csimpl.
  by rewrite Hwarp.
Qed.

Lemma clip_image_of_codes (path : string) (a : aoi) (r c : raster Z) (w : world G) :
  files w !! path = Some (LandCover r) →
  mask_codes a r = Ok c →
  ManningsN.clip_image mask_codes mask_rough path path a w
  = (Ok tt, {| requests := requests w; files := <[path := LandCover c]> (files w) |}).
Proof.
  intros Hfile Hmask. unfold ManningsN.clip_image. unfold_world.
  by rewrite Hfile, Hmask.
Qed.

Lemma clip_image_of_roughness (path : string) (a : aoi) (r m : raster (option Q))
    (w : world G) :
  files w !! path = Some (Roughness r) →
  mask_rough a r = Ok m →
  ManningsN.clip_image mask_codes mask_rough path path a w
  = (Ok tt, {| requests := requests w; files := <[path := Roughness m]> (files w) |}).
Proof.
  intros Hfile Hmask. unfold ManningsN.clip_image. unfold_world.
  by rewrite Hfile, Hmask.
Qed.

(** X18. In the tiled branch, when every tile is served and the two warps and
    the two masks succeed, the run sends one request per tile, in tile order,
    and ends without an exception. [nlcd_clip.tif] holds the clipped mosaic of
    the tiles and [mannings_n_clip.tif] the clipped mosaic of the remapped
    tiles, every tile file of the run has been removed, and no other file of
    the directory is touched. *)
Theorem tiled_run_mosaics_and_removes_the_tiles (a : aoi) (d : string) (w : world G)
    (tile_extents : list extent) (rs : list (raster Z))
    (mosaic c : raster Z) (mosaic_mannings m : raster (option Q)) :
  Qle_bool (ManningsN.area_4326 a) 9 = false →
  ManningsN.split_extent (ManningsN.ext_albers a) (intersects_5070 a) = Ok tile_extents →
  tile_extents ≠ [] →
  Forall2 (λ ext r, ∀ n, wcs (ManningsN.get_url ext) n = Some r) tile_extents rs →
  warp_codes rs = Some mosaic →
  warp_rough (map default_remap rs) = Some mosaic_mannings →
  mask_codes a mosaic = Ok c →
  mask_rough a mosaic_mannings = Ok m →
  ∃ w',
    ManningsN.get_nlcd_and_convert wcs mask_codes mask_rough warp_codes warp_rough
      a d None w = (Ok tt, w') ∧
    requests w' = requests w ++ map ManningsN.get_url tile_extents ∧
    files w' !! nlcd_clip d = Some (LandCover c) ∧
    files w' !! mannings_n_clip d = Some (Roughness m) ∧
    (∀ i, (i < length tile_extents)%nat →
          files w' !! nlcd_tile d i = None ∧ files w' !! mannings_tile d i = None) ∧
    (∀ path, path ≠ nlcd_clip d → path ≠ mannings_n_clip d → not_a_tile d path →
             files w' !! path = files w !! path).
Proof.
  intros Harea Hsplit Hsome Hserved Hwarp Hwarp_mannings Hmask Hmask_mannings.
  pose proof (Forall2_length _ _ _ Hserved) as Hlen.
  destruct (clip_is_not_a_tile d) as [Hclip Hclip_mannings].
  pose proof (nlcd_clip_is_not_mannings_n_clip d) as Hne.
  destruct (NoDup_tiles d (length rs)) as [Hdup Hdup_mannings].
  set (fs1 := with_tiles d 0 rs (files w)).
  set (fs2 := <[nlcd_clip d := LandCover mosaic]> fs1).
  set (fs3 := <[mannings_n_clip d := Roughness mosaic_mannings]> fs2).
  set (fs4 := without (nlcd_tiles d (length rs)) fs3).
  set (fs5 := without (mannings_tiles d (length rs)) fs4).
  set (rq := requests w ++ map ManningsN.get_url tile_extents).
  destruct (tiles_there d rs (files w)) as [Hthere Hthere_mannings].
  fold fs1 in Hthere, Hthere_mannings.
  assert (Hnot_nlcd : ∀ p, p ∈ nlcd_tiles d (length rs) →
                           p ≠ nlcd_clip d ∧ p ≠ mannings_n_clip d ∧
                           p ∉ mannings_tiles d (length rs)).
  { intros p (i & -> & _)%list_elem_of_fmap. split; [| split].
    - intros Heq. by destruct (Hclip i) as [[] _].
    - intros Heq. by destruct (Hclip_mannings i) as [[] _].
    - intros (j & Heq & _)%list_elem_of_fmap. symmetry in Heq.
      by apply mannings_tile_not_nlcd in Heq. }
  assert (Hnot_mannings : ∀ p, p ∈ mannings_tiles d (length rs) →
                               p ≠ nlcd_clip d ∧ p ≠ mannings_n_clip d ∧
                               p ∉ nlcd_tiles d (length rs)).
  { intros p (i & -> & _)%list_elem_of_fmap. split; [| split].
    - intros Heq. by destruct (Hclip i) as [_ []].
    - intros Heq. by destruct (Hclip_mannings i) as [_ []].
    - intros (j & Heq & _)%list_elem_of_fmap.
      by apply mannings_tile_not_nlcd in Heq. }
  assert (Hnonempty : mannings_tiles d (length rs) ≠ []).
  { unfold mannings_tiles. destruct rs as [|r rs']; [| done].
    apply Forall2_nil_inv_r in Hserved. done. }
  assert (Hclip_out : (nlcd_clip d ∉ nlcd_tiles d (length rs)) ∧
                       (nlcd_clip d ∉ mannings_tiles d (length rs)) ∧
                       (mannings_n_clip d ∉ nlcd_tiles d (length rs)) ∧
                       (mannings_n_clip d ∉ mannings_tiles d (length rs))).
  { repeat split; intros Hin.
    - by destruct (Hnot_nlcd _ Hin) as [[] _].
    - by destruct (Hnot_mannings _ Hin) as [[] _].
    - by destruct (Hnot_nlcd _ Hin) as (_ & [] & _).
    - by destruct (Hnot_mannings _ Hin) as (_ & [] & _). }
  destruct Hclip_out as (Hout1 & Hout2 & Hout3 & Hout4).
  (* the first loop *)
  pose proof (first_loop_served d tile_extents rs Hserved 0
                {| ManningsN.failed_img := []; ManningsN.tile_paths := [];
                   ManningsN.tile_paths_mannings := [] |} w) as Hloop.
  cbn [ManningsN.failed_img ManningsN.tile_paths ManningsN.tile_paths_mannings app]
    in Hloop.
  fold (nlcd_tiles d (length rs)) (mannings_tiles d (length rs)) fs1 rq in Hloop.
  (* the two mosaics *)
  assert (Hmosaic :
    ManningsN.build_mosaic warp_codes warp_rough (nlcd_tiles d (length rs)) (nlcd_clip d)
      {| requests := rq; files := fs1 |}
    = (Ok tt, {| requests := rq; files := fs2 |})).
  { by apply (build_mosaic_of_codes _ _ rs). }
  assert (Hmosaic_mannings :
    ManningsN.build_mosaic warp_codes warp_rough (mannings_tiles d (length rs))
      (mannings_n_clip d) {| requests := rq; files := fs2 |}
    = (Ok tt, {| requests := rq; files := fs3 |})).
  { apply (build_mosaic_of_roughness _ _ (map default_remap rs)); [| done | done].
    cbn [files]. apply (tiles_agree _ fs1); [done |].
    intros p Hp. destruct (Hnot_mannings p Hp) as (Hp1 & _ & _).
    subst fs2. by rewrite lookup_insert_ne. }
  (* the removal of the tiles *)
  assert (Hremove :
    foldM (λ _ tile, remove_path tile) tt (nlcd_tiles d (length rs))
      {| requests := rq; files := fs3 |}
    = (Ok tt, {| requests := rq; files := fs4 |})).
  { apply remove_tiles; [done |]. intros p Hp. cbn [files].
    destruct (Hnot_nlcd p Hp) as (Hp1 & Hp2 & _).
    subst fs3 fs2. rewrite !lookup_insert_ne by done.
    by apply (tiles_present _ _ _ _ Hthere). }
  assert (Hremove_mannings :
    foldM (λ _ tile, remove_path tile) tt (mannings_tiles d (length rs))
      {| requests := rq; files := fs4 |}
    = (Ok tt, {| requests := rq; files := fs5 |})).
  { apply remove_tiles; [done |]. intros p Hp. cbn [files].
    destruct (Hnot_mannings p Hp) as (Hp1 & Hp2 & Hp3).
    subst fs4 fs3 fs2. rewrite without_other by done.
    rewrite !lookup_insert_ne by done.
    by apply (tiles_present _ _ _ _ Hthere_mannings). }
  (* the two clips *)
  assert (Hclipped :
    ManningsN.clip_image mask_codes mask_rough (nlcd_clip d) (nlcd_clip d) a
      {| requests := rq; files := fs5 |}
    = (Ok tt, {| requests := rq; files := <[nlcd_clip d := LandCover c]> fs5 |})).
  { apply (clip_image_of_codes _ _ mosaic); [| done]. cbn [files].
    subst fs5 fs4 fs3 fs2. rewrite !without_other by done.
    by rewrite lookup_insert_ne, lookup_insert_eq. }
  assert (Hclipped_mannings :
    ManningsN.clip_image mask_codes mask_rough (mannings_n_clip d) (mannings_n_clip d) a
      {| requests := rq; files := <[nlcd_clip d := LandCover c]> fs5 |}
    = (Ok tt, {| requests := rq;
                 files := <[mannings_n_clip d := Roughness m]>
                            (<[nlcd_clip d := LandCover c]> fs5) |})).
  { apply (clip_image_of_roughness _ _ mosaic_mannings); [| done]. cbn [files].
    rewrite lookup_insert_ne by done.
    subst fs5 fs4 fs3. rewrite !without_other by done. apply lookup_insert_eq. }
  eexists. split.
  { unfold ManningsN.get_nlcd_and_convert. unfold bind at 1, ret at 1.
    rewrite Harea. unfold bind at 1, lift at 1. rewrite Hsplit.
    unfold bind at 1. unfold ManningsN.enumerate. rewrite Hloop.
    cbn [ManningsN.failed_img ManningsN.tile_paths ManningsN.tile_paths_mannings foldM].
    unfold bind at 1, ret at 1.
    cbn [ManningsN.failed_img ManningsN.tile_paths ManningsN.tile_paths_mannings].
    fold (nlcd_clip d). fold (mannings_n_clip d).
    unfold bind at 1. rewrite Hmosaic.
    unfold bind at 1. rewrite Hmosaic_mannings.
    unfold bind at 1. rewrite Hremove.
    unfold bind at 1. rewrite Hremove_mannings.
    unfold bind at 1. rewrite Hclipped.
    exact Hclipped_mannings. }
  cbn [requests files]. split; [done |]. split.
  { by rewrite lookup_insert_ne, lookup_insert_eq. }
  split; [apply lookup_insert_eq |]. split.
  - intros i Hi. rewrite Hlen in Hi.
    assert (nlcd_tile d i ∈ nlcd_tiles d (length rs)) as Hin.
    { apply list_elem_of_fmap_2, elem_of_seq. lia. }
    assert (mannings_tile d i ∈ mannings_tiles d (length rs)) as Hin_mannings.
    { apply list_elem_of_fmap_2, elem_of_seq. lia. }
    destruct (Hnot_nlcd _ Hin) as (Hp1 & Hp2 & Hp3).
    destruct (Hnot_mannings _ Hin_mannings) as (Hq1 & Hq2 & Hq3).
    rewrite !lookup_insert_ne by done. subst fs5 fs4. split.
    + rewrite without_other by done. by apply without_removed.
    + by apply without_removed.
  - intros path Hp1 Hp2 Htile.
    assert (path ∉ nlcd_tiles d (length rs)) as Hout5.
    { intros (i & -> & _)%list_elem_of_fmap. by destruct (Htile i) as [[] _]. }
    assert (path ∉ mannings_tiles d (length rs)) as Hout6.
    { intros (i & -> & _)%list_elem_of_fmap. by destruct (Htile i) as [_ []]. }
    rewrite !lookup_insert_ne by done. subst fs5 fs4 fs3 fs2 fs1.
    rewrite !without_other by done. rewrite !lookup_insert_ne by done.
    by apply with_tiles_other.
Qed.

End EveryTileServed.

Lemma tiled_run_mosaics_and_removes_the_tiles_witness :
  ∃ w',
    ManningsN.get_nlcd_and_convert Examples.wcs_up Examples.mask_id Examples.mask_id
      Examples.warp_first Examples.warp_first Examples.wide_aoi "out" None
      Examples.empty_world = (Ok tt, w') ∧
    requests w'
    = requests Examples.empty_world ++ map ManningsN.get_url Examples.wide_tiles ∧
    files w' !! nlcd_clip "out" = Some (LandCover [[11%Z; 13%Z]; [95%Z; 0%Z]]) ∧
    files w' !! mannings_n_clip "out"
    = Some (Roughness (default_remap [[11%Z; 13%Z]; [95%Z; 0%Z]])) ∧
    (∀ i, (i < length Examples.wide_tiles)%nat →
          files w' !! nlcd_tile "out" i = None ∧
          files w' !! mannings_tile "out" i = None) ∧
    (∀ path, path ≠ nlcd_clip "out" → path ≠ mannings_n_clip "out" →
             not_a_tile "out" path →
             files w' !! path = files Examples.empty_world !! path).
Proof.
  apply (tiled_run_mosaics_and_removes_the_tiles Examples.wcs_up Examples.mask_id
           Examples.mask_id Examples.warp_first Examples.warp_first Examples.wide_aoi
           "out" Examples.empty_world Examples.wide_tiles
           (replicate 16 [[11%Z; 13%Z]; [95%Z; 0%Z]])
           [[11%Z; 13%Z]; [95%Z; 0%Z]] [[11%Z; 13%Z]; [95%Z; 0%Z]]
           (default_remap [[11%Z; 13%Z]; [95%Z; 0%Z]])
           (default_remap [[11%Z; 13%Z]; [95%Z; 0%Z]])).
  - reflexivity.
  - reflexivity.
  - intros H; discriminate H.
  - repeat constructor.
  - reflexivity.
  - reflexivity.
  - reflexivity.
  - reflexivity.
Defined.

(** ** The retry pass of the raster pipeline *)

Section FreshDirectory.
Context {G : Type}.
Variable wcs : url -> nat -> option (raster Z).
Variable mask_codes : aoi -> raster Z -> result (raster Z).
Variable mask_rough : aoi -> raster (option Q) -> result (raster (option Q)).
Variable warp_codes : list (raster Z) -> option (raster Z).
Variable warp_rough : list (raster (option Q)) -> option (raster (option Q)).

Lemma bind_keeps_requests {A B} (c : M G A) (k : A -> M G B) (w : world G) :
  (∀ w0, requests (c w0).2 = requests w0) →
  (∀ a w0, requests (k a w0).2 = requests w0) →
  requests (bind c k w).2 = requests w.
Proof.
  intros Hc Hk. unfold bind. specialize (Hc w).
  destruct (c w) as [[a|e] w1]; cbn [snd] in *; [| done].
  by rewrite Hk.
Qed.

Lemma build_mosaic_requests (input_imgs : list string) (output_mosaic : string)
    (w : world G) :
  requests (ManningsN.build_mosaic warp_codes warp_rough input_imgs output_mosaic w).2
  = requests w.
Proof.
  unfold ManningsN.build_mosaic. unfold bind at 1. rewrite mapM_read_path.
  by repeat case_match.
Qed.

Lemma remove_paths_requests (paths : list string) : ∀ w : world G,
  requests (foldM (λ _ tile, remove_path tile) tt paths w).2 = requests w.
Proof.
  induction paths as [|p paths IH]; intros w; [done |].
  cbn [foldM]. apply bind_keeps_requests; [| intros [] w0; apply IH].
  intros w0. unfold remove_path. by destruct (files w0 !! p).
Qed.

Lemma first_pass_requests (d : string) (acc : ManningsN.tiles) (i : nat) (ext : extent)
    (w : world G) :
  requests (ManningsN.first_pass wcs d None acc (i, ext) w).2
  = requests w ++ [ManningsN.get_url ext].
Proof.
  unfold ManningsN.first_pass, ManningsN.get_img, ManningsN.convert_to_mannings.
  unfold_world. destruct mock_columns_present as [-> ->]. cbn beta iota.
  destruct (wcs _ _); cbn [files requests].
  - by rewrite lookup_insert_eq.
  - by destruct (files w !! _) as [[| | |]|].
Qed.

(** An iteration on a tile that has no file yet either raises or leaves
    [failed_img] as it is. *)
Lemma first_pass_fresh (d : string) (acc acc' : ManningsN.tiles) (i : nat) (ext : extent)
    (w w' : world G) :
  files w !! nlcd_tile d i = None →
  ManningsN.first_pass wcs d None acc (i, ext) w = (Ok acc', w') →
  ManningsN.failed_img acc' = ManningsN.failed_img acc.
Proof.
  intros Hfresh.
  unfold ManningsN.first_pass, ManningsN.get_img, ManningsN.convert_to_mannings.
  unfold_world. fold (nlcd_tile d i). fold (mannings_tile d i).
  destruct mock_columns_present as [-> ->]. cbn beta iota.
  destruct (wcs _ _); cbn [files requests].
  - rewrite lookup_insert_eq. by intros [= <- _].
  - rewrite Hfresh. discriminate.
Qed.

Lemma first_loop_fresh (d : string) : ∀ (its : list (nat * extent))
    (acc : ManningsN.tiles) (w : world G),
  NoDup its.*1 →
  (∀ it, it ∈ its → files w !! nlcd_tile d it.1 = None) →
  ∃ k,
    requests (foldM (ManningsN.first_pass wcs d None) acc its w).2
    = requests w ++ map (λ it, ManningsN.get_url it.2) (take k its) ∧
    ∀ acc' w', foldM (ManningsN.first_pass wcs d None) acc its w = (Ok acc', w') →
               ManningsN.failed_img acc' = ManningsN.failed_img acc ∧
               requests w' = requests w ++ map (λ it, ManningsN.get_url it.2) its.
Proof.
  induction its as [|[i ext] its IH]; intros acc w Hdup Hfresh.
  - exists 0%nat. cbn [foldM take map]. unfold ret. cbn [snd].
    rewrite app_nil_r. split; [done |]. by intros acc' w' [= <- <-].
  - apply NoDup_cons in Hdup as [Hi Hdup]. cbn [foldM].
    pose proof (first_pass_requests d acc i ext w) as Hreq.
    unfold bind at 1 2.
    destruct (ManningsN.first_pass wcs d None acc (i, ext) w) as [[acc1|e] w1] eqn:Hrun;
      cbn [snd] in Hreq.
    + assert (Hfresh1 : ∀ it, it ∈ its → files w1 !! nlcd_tile d it.1 = None).
      { intros [j ext'] Hit. cbn [fst].
        assert (j ≠ i) as Hne.
        { intros ->. apply Hi. apply list_elem_of_fmap. by exists (i, ext'). }
        rewrite (first_pass_other_files _ _ _ _ _ _ _ _ _ Hrun).
        - apply (Hfresh (j, ext')). by right.
        - by intros ?%nlcd_tile_inj.
        - intros Heq. symmetry in Heq. by apply mannings_tile_not_nlcd in Heq. }
      destruct (IH acc1 w1 Hdup Hfresh1) as (k & Hk & Hok).
      exists (S k). cbn [take map snd]. rewrite Hk, Hreq, <- app_assoc. split; [done |].
      intros acc' w' Hloop. destruct (Hok acc' w' Hloop) as [-> ->].
      rewrite Hreq, <- app_assoc. split; [| done].
      apply (first_pass_fresh d acc acc1 i ext w w1); [| done].
      apply (Hfresh (i, ext)). by left.
    + exists 1%nat. cbn [take map snd]. rewrite Hreq. split; [done |]. discriminate.
Qed.

(** X19. In an output directory that holds no tile file, the tiled branch
    never sends a retry request, whatever the endpoint answers: the requests
    of a run are the tile URLs in tile order, up to the tile at which the run
    raised if it did. The retry loop over [failed_img] can only be entered
    when a tile that failed to download has a file left from an earlier
    run. *)
Theorem fresh_directory_never_retries (a : aoi) (d : string) (w : world G)
    (tile_extents : list extent) :
  Qle_bool (ManningsN.area_4326 a) 9 = false →
  ManningsN.split_extent (ManningsN.ext_albers a) (intersects_5070 a) = Ok tile_extents →
  (∀ i, files w !! nlcd_tile d i = None) →
  ∃ k,
    requests (ManningsN.get_nlcd_and_convert wcs mask_codes mask_rough warp_codes
                warp_rough a d None w).2
    = requests w ++ map ManningsN.get_url (take k tile_extents).
Proof.
  intros Harea Hsplit Hfresh.
  assert (Hsnd : (ManningsN.enumerate tile_extents).*2 = tile_extents).
  { apply snd_zip. rewrite length_seq. lia. }
  assert (Hurls : ∀ its : list (nat * extent),
             map (λ it : nat * extent, ManningsN.get_url it.2) its
             = map ManningsN.get_url its.*2).
  { intros its. by rewrite <- list_fmap_compose. }
  destruct (first_loop_fresh d (ManningsN.enumerate tile_extents)
              {| ManningsN.failed_img := []; ManningsN.tile_paths := [];
                 ManningsN.tile_paths_mannings := [] |} w) as (k & Hk & Hok).
  { unfold ManningsN.enumerate. rewrite fst_zip by (rewrite length_seq; lia).
    apply NoDup_seq. }
  { intros it _. apply Hfresh. }
  unfold ManningsN.get_nlcd_and_convert. unfold bind at 1, ret at 1.
  rewrite Harea. unfold bind at 1, lift at 1. rewrite Hsplit.
  unfold bind at 1.
  destruct (foldM _ _ (ManningsN.enumerate tile_extents) w) as [[acc|e] w1] eqn:Hloop;
    cbn [snd] in Hk.
  - destruct (Hok acc w1 eq_refl) as [Hfailed Hreq].
    exists (length tile_extents). rewrite firstn_all.
    rewrite Hurls, Hsnd in Hreq. rewrite <- Hreq.
    cbn [ManningsN.failed_img] in Hfailed. rewrite Hfailed.
    cbn [foldM]. unfold bind at 1, ret at 1.
    repeat (apply bind_keeps_requests;
            [intros ?;
             first [apply build_mosaic_requests | apply remove_paths_requests
                   | apply clip_image_requests] | intros _ ?]).
    apply clip_image_requests.
  - exists k. cbn [snd]. by rewrite Hk, Hurls, fmap_take, Hsnd.
Qed.

End FreshDirectory.

Lemma fresh_directory_never_retries_witness :
  ∃ k,
    requests (ManningsN.get_nlcd_and_convert Examples.wcs_east_down Examples.mask_id
                Examples.mask_id Examples.warp_first Examples.warp_first
                Examples.wide_aoi "out" None Examples.empty_world).2
    = requests Examples.empty_world
      ++ map ManningsN.get_url (take k Examples.wide_tiles).
Proof.
  apply (fresh_directory_never_retries Examples.wcs_east_down Examples.mask_id
           Examples.mask_id Examples.warp_first Examples.warp_first Examples.wide_aoi
           "out" Examples.empty_world Examples.wide_tiles).
  - reflexivity.
  - reflexivity.
  - intros i. reflexivity.
Defined.

(** ** The exported lookup table *)

(** X20. A table exported to a path that ends in [.csv] passes
    [check_fields_in_csv], and [convert_to_mannings] run with that path does
    exactly what it does without a path, on every raster and output path. The
    export sends no request. *)
Theorem exported_table_is_the_default {G} (output_csv : string) (w : world G) :
  endswith output_csv ".csv" = true →
  ∃ w',
    ManningsN.export_default_csv output_csv w = (Passed tt, w') ∧
    requests w' = requests w ∧
    ManningsN.check_fields_in_csv output_csv w' = (Ok tt, w') ∧
    ∀ image_path out_img_mannings,
      ManningsN.convert_to_mannings image_path out_img_mannings (Some output_csv) w'
      = ManningsN.convert_to_mannings image_path out_img_mannings None w'.
Proof.
  intros Hcsv. unfold ManningsN.export_default_csv. rewrite Hcsv.
  eexists. split; [reflexivity |]. unfold write_file. cbn [snd requests files].
  split; [done |]. split.
  - unfold ManningsN.check_fields_in_csv, ManningsN.open_csv. unfold_world.
    cbn [files]. by rewrite lookup_insert_eq.
  - intros image_path out_img_mannings.
    unfold ManningsN.convert_to_mannings, ManningsN.open_csv. unfold_world.
    cbn [files]. by rewrite lookup_insert_eq.
Qed.

Lemma exported_table_is_the_default_witness :
  ∃ w',
    ManningsN.export_default_csv "out/lookup.csv" Examples.one_tile_world
    = (Passed tt, w') ∧
    requests w' = requests Examples.one_tile_world ∧
    ManningsN.check_fields_in_csv "out/lookup.csv" w' = (Ok tt, w') ∧
    ∀ image_path out_img_mannings,
      ManningsN.convert_to_mannings image_path out_img_mannings
        (Some "out/lookup.csv"%string) w'
      = ManningsN.convert_to_mannings image_path out_img_mannings None w'.
Proof.
  apply (exported_table_is_the_default "out/lookup.csv" Examples.one_tile_world).
  reflexivity.
Defined.

(** A path without the extension is refused and nothing is written. *)
Example export_refuses_other_extensions :
  ManningsN.export_default_csv "out/lookup.txt" Examples.one_tile_world
  = (AssertionError "Output path must end with .csv", Examples.one_tile_world).
Proof. reflexivity. Qed.
